(** * xv6 physical page allocator with per-page reference counts (kalloc.c)

    A shallow embedding of [kalloc.c]: the allocator's globals ([kmem],
    [pmem]) and the page memory are an explicit machine state, every C
    function is a computation in a small state monad whose outcomes are a
    normal return, a kernel [panic], an access outside [pmem.refcount]
    (undefined in C) or an exhausted iteration budget of the seeding loop.

    Model notes.
    - One execution context: [acquire] and [release] (spinlock.c) only
      record whether [kmem.lock] is held.
    - [kmem] and [pmem] live in the kernel image, below [end]; [kfree] only
      writes to pages at or above [end], so the globals are kept apart from
      the byte-addressed page memory [ram].
    - [uint] and pointers are 32 bits wide and wrap modulo 2^32; [int]
      arithmetic wraps in two's complement, as the i386 build does. *)

From stdpp Require Import base numbers list strings.
From Stdlib Require Import ZArith Lia Znumtheory.

Local Open Scope Z_scope.

(** ** Machine integers *)

Definition u32 (z : Z) : Z := z mod 2 ^ 32.
Definition s32 (z : Z) : Z := (z + 2 ^ 31) mod 2 ^ 32 - 2 ^ 31.

(** Modelled from the spec: mmu.h is not part of the sources; the page size
    is the fixed 4096 bytes and [PGSHIFT] its base-2 logarithm. *)
Definition PGSIZE : Z := 4096.
Definition PGSHIFT : Z := 12.

(** Modelled from the spec: the macro of mmu.h that rounds an address up to
    the next page boundary, [(sz + PGSIZE - 1) & ~(PGSIZE - 1)] on [uint]. *)
Definition PGROUNDUP (sz : Z) : Z :=
  Z.land (u32 (sz + PGSIZE - 1)) (Z.lnot (PGSIZE - 1)).

(** ** Page memory *)

Definition write8 (m : Z → Z) (a b : Z) : Z → Z :=
  λ x, if x =? a then b else m x.

(** [memset(dst, c, n)] on page memory: [n] byte stores of [(unsigned char)c]. *)
Fixpoint fill (m : Z → Z) (dst c : Z) (n : nat) : Z → Z :=
  match n with
  | O => m
  | S n' => fill (write8 m dst (Z.land c 255)) (dst + 1) c n'
  end.

(** A little-endian 32-bit pointer, as [struct run] keeps its [next] field
    in the first four bytes of a free page. *)
Definition load32 (m : Z → Z) (a : Z) : Z :=
  Z.lor (m a)
    (Z.lor (m (a + 1) ≪ 8) (Z.lor (m (a + 2) ≪ 16) (m (a + 3) ≪ 24))).

Definition store32 (m : Z → Z) (a x : Z) : Z → Z :=
  write8 (write8 (write8 (write8 m a (Z.land x 255))
    (a + 1) (Z.land (x ≫ 8) 255))
    (a + 2) (Z.land (x ≫ 16) 255))
    (a + 3) (Z.land (x ≫ 24) 255).

(** ** Allocator state *)

Record state : Type := mkState {
  kmem_lock : bool;             (* kmem.lock is held *)
  kmem_use_lock : Z;            (* int kmem.use_lock *)
  kmem_freelist : Z;            (* struct run *kmem.freelist, 0 is NULL *)
  pmem_num_free_pages : Z;      (* int pmem.num_free_pages *)
  pmem_refcount : list Z;       (* uint pmem.refcount[PHYSTOP >> PGSHIFT] *)
  ram : Z → Z                   (* bytes of physical pages, by kernel address *)
}.

Definition set_lock (b : bool) (s : state) : state :=
  mkState b (kmem_use_lock s) (kmem_freelist s) (pmem_num_free_pages s)
    (pmem_refcount s) (ram s).
Definition set_use_lock (u : Z) (s : state) : state :=
  mkState (kmem_lock s) u (kmem_freelist s) (pmem_num_free_pages s)
    (pmem_refcount s) (ram s).
Definition set_freelist (r : Z) (s : state) : state :=
  mkState (kmem_lock s) (kmem_use_lock s) r (pmem_num_free_pages s)
    (pmem_refcount s) (ram s).
Definition set_num_free_pages (n : Z) (s : state) : state :=
  mkState (kmem_lock s) (kmem_use_lock s) (kmem_freelist s) n
    (pmem_refcount s) (ram s).
Definition set_refcount (t : list Z) (s : state) : state :=
  mkState (kmem_lock s) (kmem_use_lock s) (kmem_freelist s)
    (pmem_num_free_pages s) t (ram s).
Definition set_ram (m : Z → Z) (s : state) : state :=
  mkState (kmem_lock s) (kmem_use_lock s) (kmem_freelist s)
    (pmem_num_free_pages s) (pmem_refcount s) m.

(** ** Outcomes and the allocator monad *)

Inductive outcome (A : Type) : Type :=
| Done (a : A) (s : state)          (* the function returned [a] *)
| Panic (msg : string) (s : state)  (* panic(msg): the kernel halted in [s] *)
| Undefined                         (* access outside pmem.refcount *)
| OutOfFuel.                        (* iteration budget of a loop exhausted *)
Arguments Done {A} a s.
Arguments Panic {A} msg s.
Arguments Undefined {A}.
Arguments OutOfFuel {A}.

Definition M (A : Type) : Type := state → outcome A.

#[global] Instance M_ret : MRet M := λ A a s, Done a s.
#[global] Instance M_bind : MBind M := λ A B f m s,
  match m s with
  | Done a s' => f a s'
  | Panic msg s' => Panic msg s'
  | Undefined => Undefined
  | OutOfFuel => OutOfFuel
  end.

Definition get {A : Type} (f : state → A) : M A := λ s, Done (f s) s.
Definition modify (f : state → state) : M unit := λ s, Done () (f s).
(** [panic(msg)] halts the kernel: nothing after it runs. *)
Definition panic {A : Type} (msg : string) : M A := λ s, Panic msg s.
Definition undefined {A : Type} : M A := λ _, Undefined.
Definition out_of_fuel {A : Type} : M A := λ _, OutOfFuel.

(** Modelled from the spec: spinlock.c is not part of the sources. The lock
    is a mutual-exclusion guard; with one execution context taking it marks
    it held and releasing it marks it free. *)
Definition acquire : M unit := modify (set_lock true).
Definition release : M unit := modify (set_lock false).
Definition initlock : M unit := modify (set_lock false).

(** [if(kmem.use_lock) c;] *)
Definition if_use_lock (c : M unit) : M unit :=
  u ← get kmem_use_lock; if u =? 0 then mret () else c.

(** [memset(v, c, n)] on a page. *)
Definition memset (v c n : Z) : M unit :=
  modify (λ s, set_ram (fill (ram s) v c (Z.to_nat n)) s).

(** [r->next], read and written through the page's first word. *)
Definition load_next (r : Z) : M Z := get (λ s, load32 (ram s) r).
Definition store_next (r x : Z) : M unit :=
  modify (λ s, set_ram (store32 (ram s) r x) s).

(** [pmem.refcount[i]], read and written; an index outside the array is
    undefined behaviour. *)
Definition refcount_at (t : list Z) (i : Z) : option Z :=
  if i <? 0 then None else t !! Z.to_nat i.

Definition rc_read (i : Z) : M Z := λ s,
  match refcount_at (pmem_refcount s) i with
  | Some x => Done x s
  | None => Undefined
  end.

Definition rc_write (i x : Z) : M unit := λ s,
  match refcount_at (pmem_refcount s) i with
  | Some _ => Done () (set_refcount (<[Z.to_nat i := x]> (pmem_refcount s)) s)
  | None => Undefined
  end.

(** ** The free list as a chain through page memory *)

(** [chain m h l]: following [next] pointers from [h] in memory [m] visits
    exactly the pages [l] and then reaches NULL. *)
Inductive chain (m : Z → Z) : Z → list Z → Prop :=
| chain_nil : chain m 0 []
| chain_cons p l : p ≠ 0 → chain m (load32 m p) l → chain m p (p :: l).

(** The same walk, executable, with a bound on the number of links. *)
Fixpoint walk (fuel : nat) (m : Z → Z) (p : Z) : option (list Z) :=
  if p =? 0 then Some []
  else match fuel with
       | O => None
       | S fuel' => cons p <$> walk fuel' m (load32 m p)
       end.

(** Page memory after [memset(v, 1, PGSIZE)] and [r->next = h] with [r]
    the page [v] seen as a [struct run]. *)
Definition push_ram (m : Z → Z) (v h : Z) : Z → Z :=
  store32 (fill m v 1 (Z.to_nat PGSIZE)) v h.

(** The pages [p, p + PGSIZE, ...], [n] of them. *)
Fixpoint range_pages (p : Z) (n : nat) : list Z :=
  match n with
  | O => []
  | S n' => p :: range_pages (p + PGSIZE) n'
  end.

(** ** A small machine used for the concrete runs

    Eight physical pages mapped at the usual kernel base; the kernel image
    ends one page above the base. *)
Definition demo_KERNBASE : Z := 0x80000000.
Definition demo_PHYSTOP : Z := 0x8000.
Definition demo_end : Z := 0x80001000.

(** The zeroed globals at boot. *)
Definition demo_boot : state :=
  mkState false 0 0 0 (replicate 8 0) (λ _, 0).

(** Page memory and globals after both bootstrap phases seeded the pages
    0x80001000 .. 0x80004000, two [kalloc] calls took 0x80004000 and
    0x80003000, and [inc_refcount] added a second owner to 0x80004000. *)
Definition demo_ram : Z → Z :=
  push_ram
    (push_ram
       (push_ram (push_ram (λ _, 0) 0x80001000 0) 0x80002000 0x80001000)
       0x80003000 0x80002000)
    0x80004000 0x80003000.
Definition demo_free : list Z := [0x80002000; 0x80001000].
Definition demo_state : state :=
  mkState false 1 0x80002000 2 [0; 0; 0; 1; 2; 0; 0; 0] demo_ram.

(** The same state after [inc_refcount] on the free page 0x80002000. *)
Definition demo_bumped : state :=
  mkState false 1 0x80002000 2 [0; 0; 1; 1; 2; 0; 0; 0] demo_ram.

Section Kalloc.

(** memlayout.h and the linker script are not part of the sources: the
    kernel base, the physical ceiling and the first address after the
    loaded kernel are parameters of the development. *)
Variables KERNBASE PHYSTOP kend : Z.

(** Modelled from the spec: the macro of memlayout.h that gives the
    physical address corresponding to a kernel virtual address, its offset
    from the kernel base in [uint] arithmetic. *)
Definition V2P (a : Z) : Z := u32 (u32 a - KERNBASE).

(** Number of entries of [pmem.refcount]. *)
Definition NPAGES : Z := PHYSTOP ≫ PGSHIFT.

(** The condition under which [kfree] panics at once. *)
Definition kfree_rejects (v : Z) : bool :=
  negb (u32 v mod PGSIZE =? 0) || (v <? kend) || (PHYSTOP <=? V2P v).

Definition kfree (v : Z) : M unit :=
  if kfree_rejects v then panic "kfree"
  else
    let pa := V2P v in
    let idx := pa ≫ PGSHIFT in
    use_lock ← get kmem_use_lock;
    if use_lock =? 0 then
      memset v 1 PGSIZE;;
      next ← get kmem_freelist;
      store_next v next;;
      modify (set_freelist v);;
      n ← get pmem_num_free_pages;
      modify (set_num_free_pages (s32 (n + 1)))
    else
      if_use_lock acquire;;
      c ← rc_read idx;
      if c =? 0 then panic "kfree: refcount underflow"
      else
        rc_write idx (u32 (c - 1));;
        c' ← rc_read idx;
        if 0 <? c' then
          if_use_lock release
        else
          memset v 1 PGSIZE;;
          next ← get kmem_freelist;
          store_next v next;;
          modify (set_freelist v);;
          n ← get pmem_num_free_pages;
          modify (set_num_free_pages (s32 (n + 1)));;
          if_use_lock release.

Definition kalloc : M Z :=
  if_use_lock acquire;;
  r ← get kmem_freelist;
  (if r =? 0 then mret ()
   else
     next ← load_next r;
     modify (set_freelist next);;
     n ← get pmem_num_free_pages;
     modify (set_num_free_pages (s32 (n - 1)));;
     let pa := V2P r in
     rc_write (pa ≫ PGSHIFT) 1);;
  if_use_lock release;;
  mret r.

Definition freemem : M Z := get pmem_num_free_pages.

Definition get_refcount (pa : Z) : M Z := rc_read (u32 pa ≫ PGSHIFT).

Definition inc_refcount (pa : Z) : M unit :=
  c ← rc_read (u32 pa ≫ PGSHIFT); rc_write (u32 pa ≫ PGSHIFT) (u32 (c + 1)).

Definition dec_refcount (pa : Z) : M unit :=
  c ← rc_read (u32 pa ≫ PGSHIFT); rc_write (u32 pa ≫ PGSHIFT) (u32 (c - 1)).

(** The loop of [freerange]: [for(; p + PGSIZE <= vend; p += PGSIZE) kfree(p);] *)
Fixpoint freerange_loop (fuel : nat) (p vend : Z) : M unit :=
  match fuel with
  | O => out_of_fuel
  | S fuel' =>
      if u32 (p + PGSIZE) <=? vend
      then kfree p;; freerange_loop fuel' (u32 (p + PGSIZE)) vend
      else mret ()
  end.

Definition freerange (fuel : nat) (vstart vend : Z) : M unit :=
  freerange_loop fuel (PGROUNDUP (u32 vstart)) vend.

Definition kinit1 (fuel : nat) (vstart vend : Z) : M unit :=
  initlock;;
  modify (set_use_lock 0);;
  freerange fuel vstart vend.

Definition kinit2 (fuel : nat) (vstart vend : Z) : M unit :=
  freerange fuel vstart vend;;
  modify (set_use_lock 1);;
  modify (set_refcount (replicate (Z.to_nat NPAGES) 0)).


(** ** Specification-level notions *)

(** Index of a page in [pmem.refcount]. *)
Definition pgidx (v : Z) : Z := V2P v ≫ PGSHIFT.

(** An address that [kfree] accepts. *)
Definition valid_page (v : Z) : Prop :=
  0 ≤ v < 2 ^ 32 ∧ v mod PGSIZE = 0 ∧ kend ≤ v ∧ V2P v < PHYSTOP.

(** The allocator invariant: the free list is a NULL-terminated chain of
    the distinct valid pages [l], the counter is its length, the table has
    its declared size and, once refcounting is on, free pages have count 0. *)
Record kmem_inv (s : state) (l : list Z) : Prop := mkInv {
  inv_chain : chain (ram s) (kmem_freelist s) l;
  inv_nodup : NoDup l;
  inv_valid : Forall valid_page l;
  inv_count : pmem_num_free_pages s = Z.of_nat (length l);
  inv_table : length (pmem_refcount s) = Z.to_nat NPAGES;
  inv_zero : kmem_use_lock s ≠ 0 →
             ∀ p, p ∈ l → refcount_at (pmem_refcount s) (pgidx p) = Some 0
}.

(** The counter agrees with the free list: [freemem] returns the number of
    pages on a NULL-terminated chain from [kmem.freelist]. *)
Definition counter_consistent (s : state) : Prop :=
  ∃ l, chain (ram s) (kmem_freelist s) l ∧
       freemem s = Done (Z.of_nat (length l)) s.

(** Poison the page, link it in front of the list, count it. *)
Definition push_page (v : Z) (s : state) : state :=
  set_num_free_pages (s32 (pmem_num_free_pages s + 1))
    (set_freelist v (set_ram (push_ram (ram s) v (kmem_freelist s)) s)).

(** Take the lock and drop one reference of a page whose count is [c]. *)
Definition drop_ref (v c : Z) (s : state) : state :=
  set_refcount (<[Z.to_nat (pgidx v) := u32 (c - 1)]> (pmem_refcount s))
    (set_lock true s).

(** The lock after an acquire/release pair guarded by [kmem.use_lock]. *)
Definition lock_cycle (s : state) : state :=
  if kmem_use_lock s =? 0 then s else set_lock false s.

(** Unlink the head [r], count it out, give it its first reference. *)
Definition pop_page (r : Z) (s : state) : state :=
  set_refcount (<[Z.to_nat (pgidx r) := 1]> (pmem_refcount s))
    (set_num_free_pages (s32 (pmem_num_free_pages s - 1))
       (set_freelist (load32 (ram s) r) s)).

(** Seeding a list of pages through the unlocked, un-refcounted path. *)
Definition seed_pages (s : state) (pages : list Z) : state :=
  foldl (λ s v, push_page v s) s pages.

(** A seeding range that lies inside the kernel's direct map and holds
    exactly [n] whole pages. *)
Definition seed_range_ok (vstart vend : Z) (n : nat) : Prop :=
  let p := PGROUNDUP (u32 vstart) in
  kend ≤ p ∧ KERNBASE ≤ p ∧
  p + Z.of_nat n * PGSIZE ≤ vend < p + (Z.of_nat n + 1) * PGSIZE ∧
  vend ≤ KERNBASE + PHYSTOP ∧
  p + (Z.of_nat n + 1) * PGSIZE < 2 ^ 32.

(** [n] calls of [kalloc] in a row, collecting what they return. *)
Fixpoint kalloc_many (n : nat) : M (list Z) :=
  match n with
  | O => mret []
  | S n' => r ← kalloc; rs ← kalloc_many n'; mret (r :: rs)
  end.

(** [n] calls of [kfree] on the same page in a row. *)
Fixpoint kfree_many (n : nat) (v : Z) : M unit :=
  match n with
  | O => mret ()
  | S n' => kfree v;; kfree_many n' v
  end.

(** The calls a client of the allocator can make, and a sequence of them
    run one after the other. *)
Inductive call : Type :=
| Kalloc
| Kfree (v : Z)
| GetRefcount (pa : Z)
| IncRefcount (pa : Z)
| DecRefcount (pa : Z).

Definition do_call (c : call) : M unit :=
  match c with
  | Kalloc => kalloc;; mret ()
  | Kfree v => kfree v
  | GetRefcount pa => get_refcount pa;; mret ()
  | IncRefcount pa => inc_refcount pa
  | DecRefcount pa => dec_refcount pa
  end.

Fixpoint do_calls (cs : list call) : M unit :=
  match cs with
  | [] => mret ()
  | c :: cs' => do_call c;; do_calls cs'
  end.

(** Sequences made of [kalloc] and of [kfree] with a 32-bit argument. *)
Definition alloc_free_only (c : call) : Prop :=
  match c with
  | Kalloc => True
  | Kfree v => 0 ≤ v < 2 ^ 32
  | GetRefcount _ | IncRefcount _ | DecRefcount _ => False
  end.

(** Calls whose [kfree] arguments are 32-bit addresses. *)
Definition call_in_range (c : call) : Prop :=
  match c with
  | Kfree v => 0 ≤ v < 2 ^ 32
  | Kalloc | GetRefcount _ | IncRefcount _ | DecRefcount _ => True
  end.

(** The address [n] links down the free list from [h]; NULL stays NULL. *)
Fixpoint follow (n : nat) (m : Z → Z) (h : Z) : Z :=
  match n with
  | O => h
  | S n' => if h =? 0 then 0 else follow n' m (load32 m h)
  end.

(** Every address reachable from the head of the free list is NULL or an
    address that [kfree] accepts. *)
Definition links_ok (s : state) : Prop :=
  ∀ n, follow n (ram s) (kmem_freelist s) = 0 ∨
       valid_page (follow n (ram s) (kmem_freelist s)).

(** * Proofs *)

Lemma u32_range z : 0 ≤ u32 z < 2 ^ 32.
Proof. unfold u32. apply Z.mod_pos_bound. lia. Qed.

Lemma u32_id z : 0 ≤ z < 2 ^ 32 → u32 z = z.
Proof. intros. unfold u32. apply Z.mod_small. lia. Qed.

Lemma s32_id z : - 2 ^ 31 ≤ z < 2 ^ 31 → s32 z = z.
Proof. intros. unfold s32. rewrite Z.mod_small; lia. Qed.

Lemma u32_mod_PGSIZE z : u32 z mod PGSIZE = z mod PGSIZE.
Proof.
  unfold u32, PGSIZE. apply Z.mod_mod_divide. exists (2 ^ 20). reflexivity.
Qed.

Lemma write8_eq m a b : write8 m a b a = b.
Proof. unfold write8. by rewrite Z.eqb_refl. Qed.

Lemma write8_ne m a b x : x ≠ a → write8 m a b x = m x.
Proof. intros. unfold write8. destruct (Z.eqb_spec x a); congruence. Qed.

Lemma fill_read m dst c n x :
  fill m dst c n x =
  if (dst <=? x) && (x <? dst + Z.of_nat n) then Z.land c 255 else m x.
Proof.
  revert m dst. induction n as [|n IH]; intros m dst.
  - simpl fill. destruct (Z.leb_spec dst x), (Z.ltb_spec x (dst + Z.of_nat 0));
      simpl; auto; lia.
  - simpl fill. rewrite IH. unfold write8.
    destruct (Z.leb_spec (dst + 1) x), (Z.ltb_spec x (dst + 1 + Z.of_nat n)),
      (Z.leb_spec dst x), (Z.ltb_spec x (dst + Z.of_nat (S n))),
      (Z.eqb_spec x dst); simpl; auto; lia.
Qed.

Lemma byte_testbit y k n :
  0 ≤ k → 0 ≤ n →
  Z.testbit (Z.land (y ≫ k) 255 ≪ k) n =
  Z.testbit y n && (k <=? n) && (n <? k + 8).
Proof.
  intros Hk Hn. rewrite Z.shiftl_spec by done.
  destruct (Z.leb_spec k n) as [Hle|Hlt].
  - change 255 with (Z.ones 8). rewrite Z.land_spec, Z.shiftr_spec by lia.
    replace (n - k + k) with n by lia.
    destruct (Z.ltb_spec n (k + 8)).
    + rewrite Z.ones_spec_low by lia. by rewrite !andb_true_r.
    + rewrite Z.ones_spec_high by lia. by rewrite !andb_false_r.
  - rewrite Z.testbit_neg_r by lia. by rewrite andb_false_r.
Qed.

Lemma load32_store32 m a x : 0 ≤ x < 2 ^ 32 → load32 (store32 m a x) a = x.
Proof.
  intros Hx. unfold load32, store32.
  rewrite write8_eq.
  rewrite (write8_ne _ _ _ (a + 2)), write8_eq by lia.
  rewrite 2!(write8_ne _ _ _ (a + 1)), write8_eq by lia.
  rewrite 3!(write8_ne _ _ _ a), write8_eq by lia.
  apply Z.bits_inj'. intros n Hn.
  rewrite !Z.lor_spec.
  rewrite <- (Z.shiftl_0_r (Z.land x 255)), <- (Z.shiftr_0_r x) at 1.
  rewrite !byte_testbit by lia.
  destruct (Z.ltb_spec n 32) as [Hlt|Hge].
  - destruct (Z.testbit x n); simpl; [|done].
    destruct (Z.leb_spec 0 n), (Z.ltb_spec n (0 + 8)), (Z.leb_spec 8 n),
      (Z.ltb_spec n (8 + 8)), (Z.leb_spec 16 n), (Z.ltb_spec n (16 + 8)),
      (Z.leb_spec 24 n), (Z.ltb_spec n (24 + 8)); simpl; auto; lia.
  - assert (Z.testbit x n = false) as ->.
    { destruct (Z.eq_dec x 0) as [->|]; [apply Z.bits_0|].
      apply Z.bits_above_log2; [lia|].
      assert (Z.log2 x < 32); [|lia]. apply Z.log2_lt_pow2; lia. }
    done.
Qed.

Lemma load32_ext m m' a :
  (∀ i, 0 ≤ i < 4 → m' (a + i) = m (a + i)) → load32 m' a = load32 m a.
Proof.
  intros H. unfold load32.
  pose proof (H 0) as H0. rewrite Z.add_0_r in H0.
  rewrite H0, !H by lia. done.
Qed.

Lemma store32_other m a x y : ¬ (a ≤ y < a + 4) → store32 m a x y = m y.
Proof. intros. unfold store32. rewrite !write8_ne by lia. done. Qed.

Ltac mrun :=
  cbv beta iota delta
    [mbind M_bind mret M_ret get modify panic if_use_lock acquire release
     initlock memset store_next load_next].

Ltac sproj :=
  cbn [kmem_lock kmem_use_lock kmem_freelist pmem_num_free_pages pmem_refcount
       ram set_lock set_use_lock set_freelist set_num_free_pages set_refcount
       set_ram].

Lemma kfree_seed v s :
  kfree_rejects v = false → kmem_use_lock s = 0 →
  kfree v s = Done () (push_page v s).
Proof.
  intros Hv Hu. unfold kfree. rewrite Hv. mrun. rewrite Hu. reflexivity.
Qed.

Lemma refcount_at_insert t i x :
  is_Some (refcount_at t i) → refcount_at (<[Z.to_nat i := x]> t) i = Some x.
Proof.
  unfold refcount_at. destruct (i <? 0); intros [y Hy]; [done|].
  apply list_lookup_insert_eq. by eapply lookup_lt_Some.
Qed.

Lemma refcount_at_insert_ne t i j x :
  0 ≤ i → 0 ≤ j → i ≠ j →
  refcount_at (<[Z.to_nat i := x]> t) j = refcount_at t j.
Proof.
  intros Hi Hj Hne. unfold refcount_at. destruct (j <? 0); [done|].
  apply list_lookup_insert_ne. lia.
Qed.

Lemma kfree_underflow v s :
  kfree_rejects v = false → kmem_use_lock s ≠ 0 →
  refcount_at (pmem_refcount s) (pgidx v) = Some 0 →
  kfree v s = Panic "kfree: refcount underflow" (set_lock true s).
Proof.
  intros Hv Hu Hc. apply Z.eqb_neq in Hu. unfold pgidx in Hc.
  unfold kfree. rewrite Hv. unfold rc_read, rc_write.
  repeat first [rewrite Hu | rewrite Hc | progress mrun | progress sproj].
  reflexivity.
Qed.

Lemma kfree_shared v c s :
  kfree_rejects v = false → kmem_use_lock s ≠ 0 →
  refcount_at (pmem_refcount s) (pgidx v) = Some c →
  c ≠ 0 → 0 < u32 (c - 1) →
  kfree v s = Done () (set_lock false (drop_ref v c s)).
Proof.
  intros Hv Hu Hc Hc0 Hpos. apply Z.eqb_neq in Hu, Hc0. apply Z.ltb_lt in Hpos.
  assert (refcount_at (<[Z.to_nat (pgidx v) := u32 (c - 1)]> (pmem_refcount s))
            (pgidx v) = Some (u32 (c - 1))) as Hc'
    by (apply refcount_at_insert; rewrite Hc; eauto).
  unfold drop_ref, pgidx in *.
  unfold kfree. rewrite Hv. unfold rc_read, rc_write.
  repeat first [rewrite Hu | rewrite Hc | rewrite Hc0 | rewrite Hc' | rewrite Hpos
               | progress mrun | progress sproj].
  reflexivity.
Qed.

Lemma kfree_last v c s :
  kfree_rejects v = false → kmem_use_lock s ≠ 0 →
  refcount_at (pmem_refcount s) (pgidx v) = Some c →
  c ≠ 0 → u32 (c - 1) = 0 →
  kfree v s = Done () (set_lock false (push_page v (drop_ref v c s))).
Proof.
  intros Hv Hu Hc Hc0 Hz. apply Z.eqb_neq in Hu, Hc0.
  assert (refcount_at (<[Z.to_nat (pgidx v) := u32 (c - 1)]> (pmem_refcount s))
            (pgidx v) = Some (u32 (c - 1))) as Hc'
    by (apply refcount_at_insert; rewrite Hc; eauto).
  unfold drop_ref, pgidx in *.
  unfold kfree. rewrite Hv. unfold rc_read, rc_write.
  repeat first [rewrite Hu | rewrite Hc | rewrite Hc0 | rewrite Hc'
               | progress mrun | progress sproj].
  rewrite Hz. change (0 <? 0) with false.
  repeat first [rewrite Hu | progress mrun | progress sproj].
  reflexivity.
Qed.

Lemma kalloc_empty s :
  kmem_freelist s = 0 → kalloc s = Done 0 (lock_cycle s).
Proof.
  intros Hr. unfold kalloc, lock_cycle. mrun.
  destruct (kmem_use_lock s =? 0) eqn:Hu;
    repeat first [rewrite Hr | rewrite Hu | progress mrun | progress sproj
                 | progress change (0 =? 0) with true];
    reflexivity.
Qed.

Lemma kalloc_pop s :
  kmem_freelist s ≠ 0 →
  is_Some (refcount_at (pmem_refcount s) (pgidx (kmem_freelist s))) →
  kalloc s = Done (kmem_freelist s) (lock_cycle (pop_page (kmem_freelist s) s)).
Proof.
  intros Hr [c Hc]. apply Z.eqb_neq in Hr.
  unfold kalloc, lock_cycle, pop_page, pgidx in *. unfold rc_write. mrun.
  destruct (kmem_use_lock s =? 0) eqn:Hu;
    repeat first [rewrite Hr | rewrite Hu | rewrite Hc
                 | progress mrun | progress sproj];
    reflexivity.
Qed.

Lemma kfree_rejects_spec v :
  kfree_rejects v = true ↔ v mod PGSIZE ≠ 0 ∨ v < kend ∨ PHYSTOP ≤ V2P v.
Proof.
  unfold kfree_rejects. rewrite u32_mod_PGSIZE.
  rewrite !orb_true_iff, negb_true_iff, Z.eqb_neq, Z.ltb_lt, Z.leb_le. tauto.
Qed.

Lemma kfree_accepts_spec v :
  kfree_rejects v = false ↔ v mod PGSIZE = 0 ∧ kend ≤ v ∧ V2P v < PHYSTOP.
Proof.
  rewrite <- not_true_iff_false, kfree_rejects_spec.
  destruct (Z.eq_dec (v mod PGSIZE) 0); lia.
Qed.

Lemma valid_page_accepted v : valid_page v → kfree_rejects v = false.
Proof. intros (_ & ? & ? & ?). by apply kfree_accepts_spec. Qed.

Hypothesis kend_pos : 0 < kend.
Hypothesis PHYSTOP_aligned : PHYSTOP mod PGSIZE = 0.

Lemma valid_page_nonnull v : valid_page v → v ≠ 0.
Proof using kend_pos. intros (_ & _ & ? & _). lia. Qed.

Lemma pgidx_range v : valid_page v → 0 ≤ pgidx v < NPAGES.
Proof using PHYSTOP_aligned.
  intros (_ & _ & _ & Hlt). unfold pgidx, NPAGES, PGSHIFT.
  rewrite !Z.shiftr_div_pow2 by lia. change (2 ^ 12) with 4096.
  pose proof (u32_range (u32 v - KERNBASE)) as Hr. fold (V2P v) in Hr.
  unfold PGSIZE in *.
  pose proof (Z.div_mod PHYSTOP 4096). pose proof (Z.div_mod (V2P v) 4096).
  pose proof (Z.mod_pos_bound (V2P v) 4096).
  split; [apply Z.div_pos; lia|]. apply Z.div_lt_upper_bound; lia.
Qed.

Lemma V2P_mod_PGSIZE v :
  0 ≤ v < 2 ^ 32 → V2P v mod PGSIZE = (v - KERNBASE) mod PGSIZE.
Proof. intros Hv. unfold V2P. by rewrite u32_mod_PGSIZE, (u32_id v). Qed.

Lemma pgidx_inj p q : valid_page p → valid_page q → pgidx p = pgidx q → p = q.
Proof.
  intros (Hp & Hpa & _) (Hq & Hqa & _) Heq. unfold pgidx, PGSHIFT in Heq.
  rewrite !Z.shiftr_div_pow2 in Heq by lia. change (2 ^ 12) with 4096 in Heq.
  assert (V2P p mod 4096 = V2P q mod 4096) as Hm.
  { pose proof (V2P_mod_PGSIZE p Hp) as H1. pose proof (V2P_mod_PGSIZE q Hq) as H2.
    unfold PGSIZE in *. rewrite H1, H2.
    rewrite (Zminus_mod p), (Zminus_mod q), Hpa, Hqa. done. }
  assert (V2P p = V2P q) as HV.
  { rewrite (Z.div_mod (V2P p) 4096), (Z.div_mod (V2P q) 4096) by lia.
    by rewrite Heq, Hm. }
  unfold V2P in HV. rewrite (u32_id p), (u32_id q) in HV by done.
  unfold u32 in HV.
  pose proof (Z.div_mod (p - KERNBASE) (2 ^ 32)).
  pose proof (Z.div_mod (q - KERNBASE) (2 ^ 32)). lia.
Qed.

Lemma chain_null m l : chain m 0 l → l = [].
Proof. inversion 1; congruence. Qed.

Lemma chain_head m h p l :
  chain m h (p :: l) → h = p ∧ p ≠ 0 ∧ chain m (load32 m p) l.
Proof. inversion 1; subst; auto. Qed.

Lemma chain_nonnull m h l : chain m h l → h ≠ 0 → ∃ l', l = h :: l'.
Proof. destruct 1; [congruence | eauto]. Qed.

Lemma chain_det m h l l' : chain m h l → chain m h l' → l = l'.
Proof.
  intros H. revert l'. induction H as [|p l Hp _ IH]; intros l' H'.
  - symmetry. by eapply chain_null.
  - inversion H'; subst; [congruence|]. f_equal. by apply IH.
Qed.

(** A page that links to itself is not on any NULL-terminated chain. *)
Lemma chain_self_loop m h l : load32 m h = h → h ≠ 0 → ¬ chain m h l.
Proof.
  intros Hloop Hh. induction l as [|p l IH]; inversion 1; subst; [done|].
  apply IH. by rewrite Hloop in *.
Qed.

Lemma chain_frame m m' h l :
  chain m h l → (∀ p, p ∈ l → load32 m' p = load32 m p) → chain m' h l.
Proof.
  induction 1 as [|p l Hp _ IH]; intros Hf; constructor; [done|].
  rewrite Hf by (apply elem_of_cons; auto). apply IH.
  intros q Hq. apply Hf. apply elem_of_cons; auto.
Qed.

Lemma walk_chain fuel m h l : walk fuel m h = Some l → chain m h l.
Proof.
  revert h l. induction fuel as [|fuel IH]; intros h l; simpl;
    destruct (Z.eqb_spec h 0) as [->|Hne]; intros Hw; simplify_eq;
    try constructor.
  destruct (walk fuel m (load32 m h)) as [l'|] eqn:Hw'; simplify_eq/=.
  constructor; auto.
Qed.

Lemma chain_walk m h l : chain m h l → walk (length l) m h = Some l.
Proof.
  induction 1 as [|p l Hp _ IH]; [done|]. simpl.
  destruct (Z.eqb_spec p 0); [done|]. by rewrite IH.
Qed.

Lemma chain_head_range m h l :
  chain m h l → Forall valid_page l → 0 ≤ h < 2 ^ 32.
Proof.
  destruct 1; [lia|]. intros Hv. apply Forall_cons in Hv as [(? & _) _]. done.
Qed.

(** A free list of distinct pages has at most 2^20 elements, so the [int]
    counter never wraps on it. *)
Lemma free_pages_bound l :
  NoDup l → Forall valid_page l → Z.of_nat (length l) ≤ 2 ^ 20.
Proof.
  intros Hnd Hv. rewrite Forall_forall in Hv.
  set (f := λ v : Z, v / PGSIZE).
  assert (NoDup (f <$> l)) as Hnd'.
  { apply NoDup_fmap_2_strong; [|done].
    intros x y Hx Hy Heq.
    destruct (Hv x Hx) as (_ & Hxa & _), (Hv y Hy) as (_ & Hya & _).
    unfold f, PGSIZE in *.
    pose proof (Z.div_mod x 4096). pose proof (Z.div_mod y 4096). lia. }
  assert (length (f <$> l) ≤ length (seqZ 0 (2 ^ 20)))%nat as Hle.
  { apply submseteq_length, NoDup_submseteq; [done|].
    intros k (x & -> & Hx)%list_elem_of_fmap. apply elem_of_seqZ.
    destruct (Hv x Hx) as (Hr & _). unfold f, PGSIZE.
    split; [apply Z.div_pos; lia|]. apply Z.div_lt_upper_bound; lia. }
  rewrite length_fmap, length_seqZ in Hle. lia.
Qed.

Lemma push_ram_outside m v h a :
  ¬ (v ≤ a < v + PGSIZE) → push_ram m v h a = m a.
Proof.
  intros Ha. unfold push_ram, PGSIZE in *.
  rewrite store32_other by lia. rewrite fill_read.
  destruct (Z.leb_spec v a), (Z.ltb_spec a (v + Z.of_nat (Z.to_nat 4096)));
    simpl; auto; lia.
Qed.

Lemma push_ram_poison m v h a :
  v + 4 ≤ a < v + PGSIZE → push_ram m v h a = 1.
Proof.
  intros Ha. unfold push_ram, PGSIZE in *.
  rewrite store32_other by lia. rewrite fill_read.
  destruct (Z.leb_spec v a), (Z.ltb_spec a (v + Z.of_nat (Z.to_nat 4096)));
    simpl; auto; lia.
Qed.

Lemma push_ram_link m v h : 0 ≤ h < 2 ^ 32 → load32 (push_ram m v h) v = h.
Proof. apply load32_store32. Qed.

Lemma push_ram_other_page m v h p :
  v mod PGSIZE = 0 → p mod PGSIZE = 0 → p ≠ v →
  load32 (push_ram m v h) p = load32 m p.
Proof.
  intros Hv Hp Hne. apply load32_ext. intros i Hi. apply push_ram_outside.
  unfold PGSIZE in *.
  pose proof (Z.div_mod v 4096). pose proof (Z.div_mod p 4096). lia.
Qed.

Lemma chain_push m h l v :
  chain m h l → Forall valid_page l → valid_page v → v ∉ l →
  chain (push_ram m v h) v (v :: l).
Proof using kend_pos.
  intros Hc Hl Hv Hnin. constructor; [by apply valid_page_nonnull|].
  rewrite push_ram_link by (eapply chain_head_range; eauto).
  eapply chain_frame; [done|]. intros p Hp.
  rewrite Forall_forall in Hl. destruct (Hl p Hp) as (_ & Hpa & _).
  destruct Hv as (_ & Hva & _). apply push_ram_other_page; [done..|].
  intros ->. done.
Qed.

Lemma kmem_inv_set_lock b s l : kmem_inv s l → kmem_inv (set_lock b s) l.
Proof. intros []. by constructor. Qed.

Lemma kmem_inv_lock_cycle s l : kmem_inv s l → kmem_inv (lock_cycle s) l.
Proof.
  intros H. unfold lock_cycle. destruct (kmem_use_lock s =? 0); [done|].
  by apply kmem_inv_set_lock.
Qed.

Lemma kmem_inv_push v s l :
  kmem_inv s l → valid_page v → v ∉ l →
  (kmem_use_lock s ≠ 0 → refcount_at (pmem_refcount s) (pgidx v) = Some 0) →
  kmem_inv (push_page v s) (v :: l).
Proof using kend_pos.
  intros [Hc Hnd Hv Hn Ht Hz] Hvv Hnin Hzv.
  assert (Z.of_nat (length (v :: l)) ≤ 2 ^ 20) as Hb.
  { apply free_pages_bound; [by apply NoDup_cons|by constructor]. }
  constructor; unfold push_page; sproj.
  - by apply chain_push.
  - by apply NoDup_cons.
  - by constructor.
  - rewrite Hn. simpl length in *. rewrite s32_id; lia.
  - done.
  - intros Hu p [->|Hp]%elem_of_cons; auto.
Qed.

Lemma kmem_inv_drop_ref v c s l :
  kmem_inv s l → valid_page v →
  refcount_at (pmem_refcount s) (pgidx v) = Some c → c ≠ 0 →
  kmem_inv (drop_ref v c s) l.
Proof using PHYSTOP_aligned.
  intros [Hc Hnd Hv Hn Ht Hz] Hvv Hrc Hc0.
  constructor; unfold drop_ref; sproj; try done.
  - by rewrite length_insert.
  - intros Hu p Hp. specialize (Hz Hu p Hp).
    rewrite Forall_forall in Hv.
    rewrite refcount_at_insert_ne; [done|..].
    + by apply pgidx_range.
    + apply pgidx_range. auto.
    + intros Heq. rewrite Heq in Hrc. congruence.
Qed.

Lemma refcount_at_valid s l v :
  kmem_inv s l → valid_page v →
  is_Some (refcount_at (pmem_refcount s) (pgidx v)).
Proof using PHYSTOP_aligned.
  intros Hi Hv. pose proof (pgidx_range v Hv) as Hr.
  unfold refcount_at. destruct (Z.ltb_spec (pgidx v) 0); [lia|].
  apply lookup_lt_is_Some. rewrite (inv_table _ _ Hi). lia.
Qed.

Lemma kmem_inv_pop p s l :
  kmem_inv s (p :: l) → kmem_inv (pop_page p s) l.
Proof using PHYSTOP_aligned.
  intros [Hc Hnd Hv Hn Ht Hz].
  apply chain_head in Hc as (Hh & Hp0 & Hc).
  apply NoDup_cons in Hnd as [Hnin Hnd].
  apply Forall_cons in Hv as [Hvp Hv].
  assert (Z.of_nat (length (p :: l)) ≤ 2 ^ 20) as Hb.
  { apply free_pages_bound; [by apply NoDup_cons|by constructor]. }
  constructor; unfold pop_page; sproj; try done.
  - rewrite Hn. simpl length in *. rewrite s32_id; lia.
  - by rewrite length_insert.
  - intros Hu q Hq. rewrite Forall_forall in Hv.
    rewrite refcount_at_insert_ne.
    + apply Hz; [done|]. apply elem_of_cons; auto.
    + by apply pgidx_range.
    + apply pgidx_range; auto.
    + intros Heq. apply pgidx_inj in Heq; auto. congruence.
Qed.

Lemma pop_page_refcount p s l :
  kmem_inv s (p :: l) →
  refcount_at (pmem_refcount (pop_page p s)) (pgidx p) = Some 1.
Proof using PHYSTOP_aligned.
  intros Hi. unfold pop_page; sproj. apply refcount_at_insert.
  eapply refcount_at_valid; [done|].
  by apply inv_valid, Forall_cons in Hi as [? _].
Qed.

(** What [kalloc] does on a well-formed allocator. *)
Lemma kalloc_nil s : kmem_inv s [] → kalloc s = Done 0 (lock_cycle s).
Proof. intros Hi. apply kalloc_empty. apply inv_chain in Hi. by inversion Hi. Qed.

Lemma kalloc_cons s p l :
  kmem_inv s (p :: l) → kalloc s = Done p (lock_cycle (pop_page p s)).
Proof using PHYSTOP_aligned.
  intros Hi. pose proof (inv_chain _ _ Hi) as (Hh & Hp & _)%chain_head.
  rewrite <- Hh. apply kalloc_pop; [congruence|]. rewrite Hh.
  eapply refcount_at_valid; [done|].
  by apply inv_valid, Forall_cons in Hi as [? _].
Qed.

Lemma PGROUNDUP_eq x : PGROUNDUP x = u32 (x + PGSIZE - 1) / PGSIZE * PGSIZE.
Proof.
  unfold PGROUNDUP, PGSIZE. change (4096 - 1) with (Z.ones 12).
  rewrite <- Z.ldiff_land, Z.ldiff_ones_r by lia.
  rewrite Z.shiftl_mul_pow2, Z.shiftr_div_pow2 by lia. done.
Qed.

Lemma PGROUNDUP_aligned x : PGROUNDUP x mod PGSIZE = 0.
Proof. rewrite PGROUNDUP_eq. apply Z.mod_mul. done. Qed.

Lemma PGROUNDUP_range x : 0 ≤ PGROUNDUP x < 2 ^ 32.
Proof.
  rewrite PGROUNDUP_eq. pose proof (u32_range (x + PGSIZE - 1)) as Hr.
  unfold PGSIZE in *.
  pose proof (Z.div_mod (u32 (x + 4096 - 1)) 4096).
  pose proof (Z.mod_pos_bound (u32 (x + 4096 - 1)) 4096).
  assert (0 ≤ u32 (x + 4096 - 1) / 4096) by (apply Z.div_pos; lia). lia.
Qed.

Lemma seed_pages_cons s v pages :
  seed_pages s (v :: pages) = seed_pages (push_page v s) pages.
Proof. reflexivity. Qed.

Lemma seed_pages_use_lock s pages :
  kmem_use_lock (seed_pages s pages) = kmem_use_lock s.
Proof.
  revert s. induction pages as [|v pages IH]; intros s; [done|].
  rewrite seed_pages_cons. by rewrite IH.
Qed.

Lemma seed_pages_refcount s pages :
  pmem_refcount (seed_pages s pages) = pmem_refcount s.
Proof.
  revert s. induction pages as [|v pages IH]; intros s; [done|].
  rewrite seed_pages_cons. by rewrite IH.
Qed.


Lemma range_pages_elem p n v :
  v ∈ range_pages p n ↔ ∃ k, 0 ≤ k < Z.of_nat n ∧ v = p + k * PGSIZE.
Proof.
  revert p. induction n as [|n IH]; intros p; simpl.
  - split; [by intros ?%elem_of_nil | intros (k & ? & _); lia].
  - rewrite elem_of_cons, IH. split.
    + intros [->|(k & Hk & ->)]; [exists 0; lia | exists (k + 1); lia].
    + intros (k & Hk & ->). destruct (Z.eq_dec k 0) as [->|]; [left; lia|].
      right. exists (k - 1). lia.
Qed.

Lemma freerange_loop_seed n : ∀ fuel p vend s,
  (n < fuel)%nat → kmem_use_lock s = 0 →
  (∀ v, v ∈ range_pages p n → kfree_rejects v = false) →
  0 ≤ p → p + Z.of_nat n * PGSIZE ≤ vend < p + (Z.of_nat n + 1) * PGSIZE →
  p + (Z.of_nat n + 1) * PGSIZE < 2 ^ 32 →
  freerange_loop fuel p vend s = Done () (seed_pages s (range_pages p n)).
Proof.
  induction n as [|n IH]; intros fuel p vend s Hf Hu Hv Hp Hend Hmax;
    (destruct fuel as [|fuel]; [lia|]); simpl freerange_loop;
    unfold PGSIZE in *; rewrite (u32_id (p + 4096)) by lia.
  - destruct (Z.leb_spec (p + 4096) vend); [lia|]. done.
  - destruct (Z.leb_spec (p + 4096) vend); [|lia].
    unfold mbind, M_bind.
    rewrite kfree_seed; [|apply Hv, elem_of_cons; by left|done].
    simpl range_pages. rewrite seed_pages_cons.
    apply IH; [lia|done| |unfold PGSIZE; lia..].
    intros v Hin. apply Hv, elem_of_cons. by right.
Qed.

Lemma seed_range_valid vstart vend n v :
  seed_range_ok vstart vend n →
  v ∈ range_pages (PGROUNDUP (u32 vstart)) n → valid_page v.
Proof using kend_pos.
  intros (Hk & HK & Hend & Hphys & Hmax) (k & Hk' & ->)%range_pages_elem.
  pose proof (PGROUNDUP_aligned (u32 vstart)) as Ha.
  revert Hk HK Hend Hphys Hmax Ha. generalize (PGROUNDUP (u32 vstart)).
  unfold PGSIZE. intros p Hk HK Hend Hphys Hmax Ha.
  assert (0 ≤ p + k * 4096 < 2 ^ 32) as Hr by lia.
  unfold valid_page, PGSIZE. repeat split; try lia.
  - rewrite Z.add_mod, Ha, Z.mod_mul by lia. done.
  - unfold V2P. rewrite (u32_id (p + k * 4096)) by lia.
    pose proof (Z.mod_le (p + k * 4096 - KERNBASE) (2 ^ 32)). unfold u32. lia.
Qed.

Lemma kmem_inv_seed n : ∀ p s l,
  kmem_use_lock s = 0 → kmem_inv s l → (∀ q, q ∈ l → q < p) →
  (∀ v, v ∈ range_pages p n → valid_page v) →
  kmem_inv (seed_pages s (range_pages p n)) (reverse (range_pages p n) ++ l).
Proof using kend_pos.
  induction n as [|n IH]; intros p s l Hu Hi Hlt Hv; [done|].
  simpl range_pages. rewrite seed_pages_cons, reverse_cons, <- app_assoc.
  apply IH.
  - done.
  - apply kmem_inv_push; [done|apply Hv, elem_of_cons; by left| |done].
    intros Hin. apply Hlt in Hin. lia.
  - intros q [->|Hq]%elem_of_cons; [|apply Hlt in Hq]; unfold PGSIZE; lia.
  - intros v Hin. apply Hv, elem_of_cons. by right.
Qed.

Lemma range_pages_lt p n v : v ∈ range_pages p n → v < p + Z.of_nat n * PGSIZE.
Proof. intros (k & Hk & ->)%range_pages_elem. unfold PGSIZE. lia. Qed.

Lemma freerange_seed fuel vstart vend n s :
  seed_range_ok vstart vend n → (n < fuel)%nat → kmem_use_lock s = 0 →
  freerange fuel vstart vend s =
  Done () (seed_pages s (range_pages (PGROUNDUP (u32 vstart)) n)).
Proof using kend_pos.
  intros Hok Hf Hu. unfold freerange.
  pose proof Hok as (Hk & HK & Hend & Hphys & Hmax).
  apply freerange_loop_seed; try done; [|lia].
  intros v Hv. apply valid_page_accepted. by eapply seed_range_valid.
Qed.

Lemma kinit1_inv fuel vstart vend n s :
  seed_range_ok vstart vend n → (n < fuel)%nat →
  kmem_freelist s = 0 → pmem_num_free_pages s = 0 →
  length (pmem_refcount s) = Z.to_nat NPAGES →
  ∃ s', kinit1 fuel vstart vend s = Done () s' ∧ kmem_use_lock s' = 0 ∧
        kmem_inv s' (reverse (range_pages (PGROUNDUP (u32 vstart)) n)).
Proof using kend_pos.
  intros Hok Hf Hfl Hn Ht. unfold kinit1. mrun.
  rewrite (freerange_seed _ _ _ n) by done.
  eexists. split; [done|]. split; [by rewrite seed_pages_use_lock|].
  rewrite <- (app_nil_r (reverse _)). apply kmem_inv_seed; [done| | |].
  - constructor; sproj; try done; [rewrite Hfl|]; constructor.
  - by intros q ?%elem_of_nil.
  - intros v Hv. by eapply seed_range_valid.
Qed.

Lemma kinit2_inv fuel vstart vend n s l :
  seed_range_ok vstart vend n → (n < fuel)%nat →
  kmem_use_lock s = 0 → kmem_inv s l →
  (∀ q, q ∈ l → q < PGROUNDUP (u32 vstart)) →
  ∃ s', kinit2 fuel vstart vend s = Done () s' ∧ kmem_use_lock s' = 1 ∧
        pmem_refcount s' = replicate (Z.to_nat NPAGES) 0 ∧
        kmem_inv s' (reverse (range_pages (PGROUNDUP (u32 vstart)) n) ++ l).
Proof using kend_pos PHYSTOP_aligned.
  intros Hok Hf Hu Hi Hlt. unfold kinit2. unfold mbind, M_bind.
  rewrite (freerange_seed _ _ _ n) by done. mrun.
  eexists. split; [done|]. sproj. do 2 (split; [done|]).
  destruct (kmem_inv_seed n _ s l Hu Hi Hlt) as [Hc Hnd Hv Hn Ht Hz].
  { intros v Hv. by eapply seed_range_valid. }
  constructor; sproj; try done.
  - by rewrite length_replicate.
  - intros _ p Hp. rewrite Forall_forall in Hv.
    pose proof (pgidx_range p (Hv p Hp)) as Hr.
    unfold refcount_at. destruct (Z.ltb_spec (pgidx p) 0); [lia|].
    apply lookup_replicate_2. lia.
Qed.

(** ** [kfree] and [kalloc] on a well-formed allocator *)

Lemma kfree_rejected v s :
  kfree_rejects v = true → kfree v s = Panic "kfree" s.
Proof. intros Hv. unfold kfree. by rewrite Hv. Qed.

Lemma kfree_inv_seed v s l :
  kmem_inv s l → valid_page v → kmem_use_lock s = 0 → v ∉ l →
  kfree v s = Done () (push_page v s) ∧ kmem_inv (push_page v s) (v :: l).
Proof using kend_pos.
  intros Hi Hv Hu Hnin. split.
  - apply kfree_seed; [by apply valid_page_accepted|done].
  - apply kmem_inv_push; try done.
Qed.

Lemma not_free_of_refcount v c s l :
  kmem_inv s l → kmem_use_lock s ≠ 0 →
  refcount_at (pmem_refcount s) (pgidx v) = Some c → c ≠ 0 → v ∉ l.
Proof.
  intros Hi Hu Hc Hc0 Hin. rewrite (inv_zero _ _ Hi Hu v Hin) in Hc. congruence.
Qed.

Lemma kfree_inv_shared v c s l :
  kmem_inv s l → valid_page v → kmem_use_lock s ≠ 0 →
  refcount_at (pmem_refcount s) (pgidx v) = Some c → c ≠ 0 → 0 < u32 (c - 1) →
  kfree v s = Done () (set_lock false (drop_ref v c s)) ∧
  kmem_inv (set_lock false (drop_ref v c s)) l.
Proof using PHYSTOP_aligned.
  intros Hi Hv Hu Hc Hc0 Hpos. split.
  - apply kfree_shared; try done. by apply valid_page_accepted.
  - apply kmem_inv_set_lock. by apply kmem_inv_drop_ref.
Qed.

Lemma kfree_inv_last v c s l :
  kmem_inv s l → valid_page v → kmem_use_lock s ≠ 0 →
  refcount_at (pmem_refcount s) (pgidx v) = Some c → c ≠ 0 → u32 (c - 1) = 0 →
  kfree v s = Done () (set_lock false (push_page v (drop_ref v c s))) ∧
  kmem_inv (set_lock false (push_page v (drop_ref v c s))) (v :: l).
Proof using kend_pos PHYSTOP_aligned.
  intros Hi Hv Hu Hc Hc0 Hz. split.
  - apply kfree_last; try done. by apply valid_page_accepted.
  - apply kmem_inv_set_lock, kmem_inv_push.
    + by apply kmem_inv_drop_ref.
    + done.
    + by eapply not_free_of_refcount.
    + intros _. unfold drop_ref; sproj. rewrite <- Hz.
      apply refcount_at_insert. rewrite Hc. eauto.
Qed.

(** Every call of [kfree] on a well-formed allocator either panics, leaving
    the free list as it was, or returns to a well-formed allocator. *)
Lemma kfree_inv v s l :
  kmem_inv s l → 0 ≤ v < 2 ^ 32 → (kmem_use_lock s = 0 → v ∉ l) →
  (∃ msg s', kfree v s = Panic msg s' ∧ kmem_inv s' l) ∨
  (∃ s', kfree v s = Done () s' ∧ (kmem_inv s' l ∨ kmem_inv s' (v :: l))).
Proof using kend_pos PHYSTOP_aligned.
  intros Hi Hr Hboot.
  destruct (kfree_rejects v) eqn:Hv.
  { left. exists "kfree", s. split; [by apply kfree_rejected|done]. }
  assert (valid_page v) as Hvp.
  { apply kfree_accepts_spec in Hv. by split. }
  destruct (Z.eq_dec (kmem_use_lock s) 0) as [Hu|Hu].
  { right. eexists. destruct (kfree_inv_seed v s l) as [-> ?]; auto. }
  destruct (refcount_at_valid s l v Hi Hvp) as [c Hc].
  destruct (Z.eq_dec c 0) as [->|Hc0].
  { left. do 2 eexists. split; [by apply kfree_underflow|].
    by apply kmem_inv_set_lock. }
  right. pose proof (u32_range (c - 1)) as Hc1.
  destruct (Z.eq_dec (u32 (c - 1)) 0) as [Hz|Hnz].
  - eexists. destruct (kfree_inv_last v c s l) as [-> ?]; auto.
  - eexists. destruct (kfree_inv_shared v c s l) as [-> ?]; auto. lia.
Qed.

Lemma kalloc_inv s l :
  kmem_inv s l →
  ∃ r s', kalloc s = Done r s' ∧ kmem_inv s' (tail l) ∧ head l = (if r =? 0 then None else Some r).
Proof using kend_pos PHYSTOP_aligned.
  intros Hi. destruct l as [|p l].
  - exists 0, (lock_cycle s). split; [by apply kalloc_nil|].
    split; [by apply kmem_inv_lock_cycle|done].
  - exists p, (lock_cycle (pop_page p s)). split; [by eapply kalloc_cons|].
    split; [by apply kmem_inv_lock_cycle, kmem_inv_pop|]. simpl.
    apply inv_valid, Forall_cons in Hi as [Hp%valid_page_nonnull _].
    by destruct (Z.eqb_spec p 0).
Qed.

Lemma lock_cycle_use_lock s : kmem_use_lock (lock_cycle s) = kmem_use_lock s.
Proof. unfold lock_cycle. by destruct (kmem_use_lock s =? 0). Qed.

Lemma lock_cycle_refcount s : pmem_refcount (lock_cycle s) = pmem_refcount s.
Proof. unfold lock_cycle. by destruct (kmem_use_lock s =? 0). Qed.

Lemma lock_cycle_freelist s : kmem_freelist (lock_cycle s) = kmem_freelist s.
Proof. unfold lock_cycle. by destruct (kmem_use_lock s =? 0). Qed.

Lemma lock_cycle_num s :
  pmem_num_free_pages (lock_cycle s) = pmem_num_free_pages s.
Proof. unfold lock_cycle. by destruct (kmem_use_lock s =? 0). Qed.

Lemma lock_cycle_ram s : ram (lock_cycle s) = ram s.
Proof. unfold lock_cycle. by destruct (kmem_use_lock s =? 0). Qed.

Lemma pgidx_nonneg v : 0 ≤ pgidx v.
Proof.
  unfold pgidx. apply Z.shiftr_nonneg. unfold V2P. apply u32_range.
Qed.

Lemma pop_page_refcount_other p s i :
  i ≠ pgidx p →
  refcount_at (pmem_refcount (pop_page p s)) i = refcount_at (pmem_refcount s) i.
Proof.
  intros Hne. unfold pop_page; sproj. unfold refcount_at.
  destruct (Z.ltb_spec i 0); [done|].
  apply list_lookup_insert_ne. pose proof (pgidx_nonneg p). lia.
Qed.

(** Allocating the whole pool returns the free list in order and leaves
    every returned page with exactly one reference. *)
Lemma kalloc_many_spec l : ∀ s,
  kmem_inv s l →
  ∃ s', kalloc_many (length l) s = Done l s' ∧ kmem_inv s' [] ∧
        kmem_use_lock s' = kmem_use_lock s ∧
        (∀ i, (∀ p, p ∈ l → pgidx p ≠ i) →
              refcount_at (pmem_refcount s') i = refcount_at (pmem_refcount s) i) ∧
        (∀ p, p ∈ l → refcount_at (pmem_refcount s') (pgidx p) = Some 1).
Proof using kend_pos PHYSTOP_aligned.
  induction l as [|p l IH]; intros s Hi.
  - exists s. by split_and!; [done..|intros p ?%elem_of_nil].
  - simpl kalloc_many. unfold mbind, M_bind. rewrite (kalloc_cons s p l Hi).
    pose proof (kmem_inv_lock_cycle _ _ (kmem_inv_pop p s l Hi)) as Hi'.
    destruct (IH _ Hi') as (s' & -> & Hnil & Hu & Hframe & Hone).
    pose proof (inv_nodup _ _ Hi) as [Hnin _]%NoDup_cons.
    pose proof (inv_valid _ _ Hi) as [Hvp Hvl]%Forall_cons.
    rewrite Forall_forall in Hvl.
    exists s'. split_and!; [done..| | |].
    + by rewrite Hu, lock_cycle_use_lock.
    + intros i Hi0. rewrite Hframe, lock_cycle_refcount.
      * apply pop_page_refcount_other. intros ->. eapply Hi0; [|done].
        apply elem_of_cons; auto.
      * intros q Hq. apply Hi0, elem_of_cons. auto.
    + intros q [->|Hq]%elem_of_cons; [|by apply Hone].
      rewrite Hframe, lock_cycle_refcount; [by eapply pop_page_refcount|].
      intros q Hq Heq. apply pgidx_inj in Heq; auto. congruence.
Qed.

(** * Properties of the allocator *)

(** C7. [kfree] panics with "kfree", before it changes anything, on every
    address that is not page-aligned, lies below [end] or whose physical
    address is at or above [PHYSTOP]; an address that meets all three
    conditions passes this check: whatever [kfree] then does, it is not
    this panic. *)
Theorem kfree_bounds_check (v : Z) (s : state) :
  (v mod PGSIZE ≠ 0 ∨ v < kend ∨ PHYSTOP ≤ V2P v → kfree v s = Panic "kfree" s) ∧
  (v mod PGSIZE = 0 ∧ kend ≤ v ∧ V2P v < PHYSTOP →
   ∀ s', kfree v s ≠ Panic "kfree" s').
Proof.
  split.
  - intros H. by apply kfree_rejected, kfree_rejects_spec.
  - intros Hv%kfree_accepts_spec s'.
    destruct (Z.eq_dec (kmem_use_lock s) 0) as [Hu|Hu].
    { by rewrite kfree_seed. }
    destruct (refcount_at (pmem_refcount s) (pgidx v)) as [c|] eqn:Hc.
    + destruct (Z.eq_dec c 0) as [->|Hc0].
      { by rewrite kfree_underflow. }
      pose proof (u32_range (c - 1)).
      destruct (Z.eq_dec (u32 (c - 1)) 0).
      * by rewrite (kfree_last v c).
      * rewrite (kfree_shared v c); [done..|lia].
    + apply Z.eqb_neq in Hu. unfold pgidx in Hc. unfold kfree, rc_read.
      rewrite Hv.
      repeat first [rewrite Hu | rewrite Hc | progress mrun | progress sproj].
      done.
Qed.

(** C2. With refcounting active, [kfree] of an accepted address whose
    reference count is 0 panics with "kfree: refcount underflow"; at the
    panic the free list, the counter, the table and page memory are as
    before the call. *)
Theorem kfree_double_free_panics (v : Z) (s : state) :
  kmem_use_lock s ≠ 0 →
  v mod PGSIZE = 0 → kend ≤ v → V2P v < PHYSTOP →
  refcount_at (pmem_refcount s) (pgidx v) = Some 0 →
  ∃ s', kfree v s = Panic "kfree: refcount underflow" s' ∧
        kmem_freelist s' = kmem_freelist s ∧
        pmem_num_free_pages s' = pmem_num_free_pages s ∧
        pmem_refcount s' = pmem_refcount s ∧
        ram s' = ram s ∧
        kmem_use_lock s' = kmem_use_lock s.
Proof.
  intros Hu Ha Hk Hp Hc. exists (set_lock true s).
  split; [|done]. apply kfree_underflow; try done.
  by apply kfree_accepts_spec.
Qed.

(** C3 (as amended). Once refcounting is active ([use_lock] not 0), [kfree]
    of an accepted page whose count is exactly 1 returns; the count is then 0, all 4096 bytes of the page were
    set to the poison byte 1 before the [next] link was written over its
    first word, the page is the new head of the free list, linked to the
    old head, and the counter went up by one (as long as it was below the
    largest [int]). Other pages and other counts are untouched. *)
Theorem kfree_last_owner (v : Z) (s : state) :
  kmem_use_lock s ≠ 0 →
  v mod PGSIZE = 0 → kend ≤ v → V2P v < PHYSTOP →
  refcount_at (pmem_refcount s) (pgidx v) = Some 1 →
  ∃ s', kfree v s = Done () s' ∧
        refcount_at (pmem_refcount s') (pgidx v) = Some 0 ∧
        (∃ m, (∀ a, v ≤ a < v + PGSIZE → m a = 1) ∧
              (∀ a, ¬ (v ≤ a < v + PGSIZE) → m a = ram s a) ∧
              ram s' = store32 m v (kmem_freelist s)) ∧
        (∀ a, v + 4 ≤ a < v + PGSIZE → ram s' a = 1) ∧
        (∀ a, ¬ (v ≤ a < v + PGSIZE) → ram s' a = ram s a) ∧
        kmem_freelist s' = v ∧
        (0 ≤ kmem_freelist s < 2 ^ 32 → load32 (ram s') v = kmem_freelist s) ∧
        pmem_num_free_pages s' = s32 (pmem_num_free_pages s + 1) ∧
        (- 2 ^ 31 ≤ pmem_num_free_pages s < 2 ^ 31 - 1 →
         pmem_num_free_pages s' = pmem_num_free_pages s + 1) ∧
        (∀ i, i ≠ pgidx v →
              refcount_at (pmem_refcount s') i = refcount_at (pmem_refcount s) i).
Proof.
  intros Hu Ha Hk Hp Hc.
  exists (set_lock false (push_page v (drop_ref v 1 s))).
  split.
  { apply kfree_last; try done. by apply kfree_accepts_spec. }
  unfold push_page, drop_ref; sproj. split_and!.
  - change (u32 (1 - 1)) with 0. apply refcount_at_insert. rewrite Hc. eauto.
  - exists (fill (ram s) v 1 (Z.to_nat PGSIZE)). split_and!; [| |done].
    + intros a Hr. rewrite fill_read. unfold PGSIZE in *.
      destruct (Z.leb_spec v a), (Z.ltb_spec a (v + Z.of_nat (Z.to_nat 4096)));
        simpl; auto; lia.
    + intros a Hr. rewrite fill_read. unfold PGSIZE in *.
      destruct (Z.leb_spec v a), (Z.ltb_spec a (v + Z.of_nat (Z.to_nat 4096)));
        simpl; auto; lia.
  - intros a Hr. by apply push_ram_poison.
  - intros a Hr. by apply push_ram_outside.
  - done.
  - apply push_ram_link.
  - done.
  - intros Hr. apply s32_id. lia.
  - intros i Hi. unfold refcount_at. destruct (Z.ltb_spec i 0); [done|].
    apply list_lookup_insert_ne. pose proof (pgidx_nonneg v). lia.
Qed.

(** C4 (as amended). Once refcounting is active ([use_lock] not 0), [kfree]
    of an accepted page whose count is [n > 1] returns with the count at [n - 1] and nothing else changed: page
    memory, the free list, the counter and all other counts are as before,
    and the lock is released. *)
Theorem kfree_still_shared (v n : Z) (s : state) :
  kmem_use_lock s ≠ 0 →
  v mod PGSIZE = 0 → kend ≤ v → V2P v < PHYSTOP →
  refcount_at (pmem_refcount s) (pgidx v) = Some n → 1 < n < 2 ^ 32 →
  ∃ s', kfree v s = Done () s' ∧
        refcount_at (pmem_refcount s') (pgidx v) = Some (n - 1) ∧
        ram s' = ram s ∧
        kmem_freelist s' = kmem_freelist s ∧
        pmem_num_free_pages s' = pmem_num_free_pages s ∧
        kmem_lock s' = false ∧
        kmem_use_lock s' = kmem_use_lock s ∧
        (∀ i, i ≠ pgidx v →
              refcount_at (pmem_refcount s') i = refcount_at (pmem_refcount s) i).
Proof.
  intros Hu Ha Hk Hp Hc Hn.
  exists (set_lock false (drop_ref v n s)).
  assert (u32 (n - 1) = n - 1) as Hn1 by (apply u32_id; lia).
  split.
  { apply kfree_shared; try done; [by apply kfree_accepts_spec|lia..]. }
  unfold drop_ref; sproj. split_and!; try done.
  - rewrite Hn1. apply refcount_at_insert. rewrite Hc. eauto.
  - intros i Hi. unfold refcount_at. destruct (Z.ltb_spec i 0); [done|].
    apply list_lookup_insert_ne. pose proof (pgidx_nonneg v). lia.
Qed.

Lemma get_refcount_V2P v s :
  get_refcount (V2P v) s =
  match refcount_at (pmem_refcount s) (pgidx v) with
  | Some c => Done c s
  | None => Undefined
  end.
Proof.
  unfold get_refcount, rc_read, pgidx.
  rewrite (u32_id (V2P v)); [done|]. unfold V2P. apply u32_range.
Qed.

(** C5. On a well-formed allocator with a non-empty free list, [kalloc]
    returns the current head, unlinks it, lowers the counter by one and sets
    the page's count to 1: [get_refcount] of the page's physical address
    then returns 1, and the returned address is a multiple of 4096. *)
Theorem kalloc_success (s : state) (l : list Z) :
  kmem_inv s l → kmem_freelist s ≠ 0 →
  ∃ s' l', l = kmem_freelist s :: l' ∧
           kalloc s = Done (kmem_freelist s) s' ∧
           kmem_freelist s' = load32 (ram s) (kmem_freelist s) ∧
           pmem_num_free_pages s' = pmem_num_free_pages s - 1 ∧
           refcount_at (pmem_refcount s') (pgidx (kmem_freelist s)) = Some 1 ∧
           get_refcount (V2P (kmem_freelist s)) s' = Done 1 s' ∧
           kmem_freelist s mod PGSIZE = 0 ∧
           kmem_inv s' l'.
Proof using kend_pos PHYSTOP_aligned.
  intros Hi Hne.
  destruct (chain_nonnull _ _ _ (inv_chain _ _ Hi) Hne) as [l' ->].
  set (p := kmem_freelist s) in *.
  pose proof (inv_valid _ _ Hi) as [Hvp _]%Forall_cons.
  pose proof (inv_nodup _ _ Hi) as Hnd.
  assert (Z.of_nat (length (p :: l')) ≤ 2 ^ 20) as Hb
    by (apply free_pages_bound; [done|by apply inv_valid in Hi]).
  assert (refcount_at (pmem_refcount (lock_cycle (pop_page p s))) (pgidx p) = Some 1)
    as Hone by (rewrite lock_cycle_refcount; by eapply pop_page_refcount).
  exists (lock_cycle (pop_page p s)), l'. split_and!.
  - done.
  - by eapply kalloc_cons.
  - by rewrite lock_cycle_freelist.
  - rewrite lock_cycle_num. unfold pop_page; sproj.
    rewrite (inv_count _ _ Hi) in *. simpl length in *. apply s32_id. lia.
  - done.
  - by rewrite get_refcount_V2P, Hone.
  - by destruct Hvp as (_ & ? & _).
  - by apply kmem_inv_lock_cycle, kmem_inv_pop.
Qed.

Lemma freerange_loop_unlocked fuel : ∀ p vend s,
  kmem_use_lock s = 0 →
  match freerange_loop fuel p vend s with
  | Done _ s' | Panic _ s' =>
      kmem_use_lock s' = 0 ∧ pmem_refcount s' = pmem_refcount s
  | Undefined => False
  | OutOfFuel => True
  end.
Proof.
  induction fuel as [|fuel IH]; intros p vend s Hu; simpl; [done|].
  destruct (u32 (p + PGSIZE) <=? vend); [|done].
  unfold mbind, M_bind. destruct (kfree_rejects p) eqn:Hp.
  - by rewrite kfree_rejected.
  - rewrite kfree_seed by done.
    specialize (IH (u32 (p + PGSIZE)) vend (push_page p s) Hu).
    by destruct (freerange_loop _ _ _ _).
Qed.

(** C6. Whatever the range, as long as [use_lock] is 0 when [kinit2] is
    called, the seeding never reads or writes the table and leaves the flag
    at 0, whether it returns or panics; only when it has returned is the
    flag set to 1 and every entry of the table set to 0. For a range inside
    the direct map the seeding returns (given enough iterations) and has
    pushed every whole page of the range, lowest address first, through the
    unlocked path: each page poisoned, linked and counted. Free list,
    counter and page memory after [kinit2] are those the seeding left, and
    a well-formed allocator below the range stays well-formed. *)
Theorem kinit2_order :
  (∀ fuel vstart vend s,
     kmem_use_lock s = 0 →
     match freerange fuel vstart vend s with
     | Done _ s1 =>
         kmem_use_lock s1 = 0 ∧ pmem_refcount s1 = pmem_refcount s ∧
         kinit2 fuel vstart vend s =
         Done () (set_refcount (replicate (Z.to_nat NPAGES) 0)
                    (set_use_lock 1 s1))
     | Panic msg s1 =>
         kmem_use_lock s1 = 0 ∧ pmem_refcount s1 = pmem_refcount s ∧
         kinit2 fuel vstart vend s = Panic msg s1
     | Undefined => False
     | OutOfFuel => kinit2 fuel vstart vend s = OutOfFuel
     end) ∧
  (∀ fuel vstart vend n s,
     seed_range_ok vstart vend n → (n < fuel)%nat → kmem_use_lock s = 0 →
     let pages := range_pages (PGROUNDUP (u32 vstart)) n in
     let s1 := seed_pages s pages in
     let s2 :=
       set_refcount (replicate (Z.to_nat NPAGES) 0) (set_use_lock 1 s1) in
     freerange fuel vstart vend s = Done () s1 ∧
     (∀ v, v ∈ pages ↔
           ∃ k, 0 ≤ k ∧ v = PGROUNDUP (u32 vstart) + k * PGSIZE ∧
                v + PGSIZE ≤ vend) ∧
     kinit2 fuel vstart vend s = Done () s2 ∧
     kmem_use_lock s2 = 1 ∧
     (∀ i, 0 ≤ i < NPAGES → refcount_at (pmem_refcount s2) i = Some 0) ∧
     kmem_freelist s2 = kmem_freelist s1 ∧
     pmem_num_free_pages s2 = pmem_num_free_pages s1 ∧
     ram s2 = ram s1 ∧
     (∀ l, kmem_inv s l → (∀ q, q ∈ l → q < PGROUNDUP (u32 vstart)) →
           kmem_inv s2 (reverse pages ++ l))).
Proof using kend_pos PHYSTOP_aligned.
  split.
  { intros fuel vstart vend s Hu.
    pose proof (freerange_loop_unlocked fuel (PGROUNDUP (u32 vstart)) vend s Hu)
      as H.
    unfold kinit2, mbind, M_bind, freerange in *.
    destruct (freerange_loop _ _ _ _) as [[] s1|msg s1| |]; try done;
      by destruct H. }
  intros fuel vstart vend n s Hok Hf Hu pages s1 s2.
  assert (freerange fuel vstart vend s = Done () s1) as Hfr
    by (by apply freerange_seed).
  split_and!; try done.
  - intros v. unfold pages. rewrite range_pages_elem.
    destruct Hok as (_ & _ & Hend & _). unfold PGSIZE in *.
    split; intros (k & Hk & Hv); exists k; [destruct Hk|destruct Hv]; subst v;
      split_and!; try done; lia.
  - unfold kinit2, mbind, M_bind. by rewrite Hfr.
  - intros i Hi. unfold s2; sproj. unfold refcount_at.
    destruct (Z.ltb_spec i 0); [lia|]. apply lookup_replicate_2. lia.
  - intros l Hi Hlt.
    destruct (kinit2_inv fuel vstart vend n s l) as (s' & Hk & _ & _ & Hinv);
      try done.
    unfold kinit2, mbind, M_bind in Hk. rewrite Hfr in Hk.
    by injection Hk as <-.
Qed.

(** Freeing a page that is off the free list as its only owner, then
    allocating, gives the same page back. *)
Lemma kfree_kalloc_lifo v s l :
  kmem_inv s l → valid_page v → v ∉ l →
  (kmem_use_lock s ≠ 0 → refcount_at (pmem_refcount s) (pgidx v) = Some 1) →
  ∃ s1 s2, kfree v s = Done () s1 ∧ kmem_inv s1 (v :: l) ∧
           kalloc s1 = Done v s2 ∧ kmem_inv s2 l.
Proof using kend_pos PHYSTOP_aligned.
  intros Hi Hv Hnin Hone.
  assert (∃ s1, kfree v s = Done () s1 ∧ kmem_inv s1 (v :: l)) as (s1 & Hf & Hi1).
  { destruct (Z.eq_dec (kmem_use_lock s) 0) as [Hu|Hu].
    - eexists. by apply kfree_inv_seed.
    - eexists. apply (kfree_inv_last v 1); auto. }
  exists s1, (lock_cycle (pop_page v s1)). split_and!; try done.
  - by eapply kalloc_cons.
  - by apply kmem_inv_lock_cycle, kmem_inv_pop.
Qed.

(** C8. On an empty free list [kalloc] returns NULL and leaves free list,
    counter, table and page memory as they were. On a well-formed allocator
    with [N] free pages, [N] calls in a row return the [N] pages of the free
    list, none of them NULL, the next call returns NULL, and after a
    [kfree] of any one of the pages just allocated [kalloc] succeeds again. *)
Theorem kalloc_exhaustion :
  (∀ s, kmem_freelist s = 0 →
        ∃ s', kalloc s = Done 0 s' ∧
              kmem_freelist s' = kmem_freelist s ∧
              pmem_num_free_pages s' = pmem_num_free_pages s ∧
              pmem_refcount s' = pmem_refcount s ∧
              ram s' = ram s) ∧
  (∀ s l, kmem_inv s l →
        ∃ s1, kalloc_many (length l) s = Done l s1 ∧
              Forall (λ r, r ≠ 0) l ∧
              (∃ s2, kalloc s1 = Done 0 s2 ∧
                     kmem_freelist s2 = kmem_freelist s1 ∧
                     pmem_num_free_pages s2 = pmem_num_free_pages s1 ∧
                     pmem_refcount s2 = pmem_refcount s1 ∧
                     ram s2 = ram s1) ∧
              (∀ p, p ∈ l →
                    ∃ s3 s4, kfree p s1 = Done () s3 ∧
                             kalloc s3 = Done p s4 ∧ p ≠ 0)).
Proof using kend_pos PHYSTOP_aligned.
  assert (∀ s, kmem_freelist s = 0 →
        ∃ s', kalloc s = Done 0 s' ∧
              kmem_freelist s' = kmem_freelist s ∧
              pmem_num_free_pages s' = pmem_num_free_pages s ∧
              pmem_refcount s' = pmem_refcount s ∧
              ram s' = ram s) as Hempty.
  { intros s Hs. exists (lock_cycle s). split; [by apply kalloc_empty|].
    by rewrite lock_cycle_freelist, lock_cycle_num, lock_cycle_refcount,
      lock_cycle_ram. }
  split; [done|]. intros s l Hi.
  destruct (kalloc_many_spec l s Hi) as (s1 & Hmany & Hnil & Hu & _ & Hone).
  pose proof (inv_valid _ _ Hi) as Hvl. rewrite Forall_forall in Hvl.
  exists s1. split_and!.
  - done.
  - apply Forall_forall. intros p Hp. by apply valid_page_nonnull, Hvl.
  - apply Hempty. apply inv_chain in Hnil. by inversion Hnil.
  - intros p Hp.
    destruct (kfree_kalloc_lifo p s1 []) as (s3 & s4 & Hf & _ & Ha & _); auto.
    { by intros ?%elem_of_nil. }
    exists s3, s4. split_and!; try done. by apply valid_page_nonnull, Hvl.
Qed.

(** C9. The free list is a stack. On a well-formed allocator, [N] calls of
    [kalloc] on a pool of [N] pages return [N] distinct addresses; freeing
    the page allocated last, as its only owner, and allocating once more
    returns that very page, both after the pool was emptied and after any
    single allocation. *)
Theorem freelist_lifo (s : state) (l : list Z) :
  kmem_inv s l →
  (∃ s1, kalloc_many (length l) s = Done l s1 ∧ NoDup l ∧
         ∀ l0 p, l = l0 ++ [p] →
                 ∃ s2 s3, kfree p s1 = Done () s2 ∧ kalloc s2 = Done p s3) ∧
  (∀ p l', l = p :: l' →
           ∃ s1 s2 s3, kalloc s = Done p s1 ∧ kfree p s1 = Done () s2 ∧
                       kalloc s2 = Done p s3 ∧ kmem_inv s3 l').
Proof using kend_pos PHYSTOP_aligned.
  intros Hi. pose proof (inv_valid _ _ Hi) as Hvl. rewrite Forall_forall in Hvl.
  split.
  - destruct (kalloc_many_spec l s Hi) as (s1 & Hmany & Hnil & Hu & _ & Hone).
    exists s1. split_and!; [done|by apply inv_nodup in Hi|].
    intros l0 p ->.
    assert (p ∈ l0 ++ [p]) as Hp by (apply elem_of_app; right; by left).
    destruct (kfree_kalloc_lifo p s1 []) as (s2 & s3 & Hf & _ & Ha & _); eauto.
    by intros ?%elem_of_nil.
  - intros p l' ->.
    pose proof (inv_nodup _ _ Hi) as [Hnin _]%NoDup_cons.
    assert (kmem_inv (lock_cycle (pop_page p s)) l') as Hi1
      by (by apply kmem_inv_lock_cycle, kmem_inv_pop).
    destruct (kfree_kalloc_lifo p (lock_cycle (pop_page p s)) l')
      as (s2 & s3 & Hf & _ & Ha & Hi3); auto.
    { apply Hvl, elem_of_cons; auto. }
    { intros _. rewrite lock_cycle_refcount. by eapply pop_page_refcount. }
    exists (lock_cycle (pop_page p s)), s2, s3. split_and!; try done.
    by eapply kalloc_cons.
Qed.

(** ** The reference-count accessors *)

Lemma rc_update pa x s c :
  refcount_at (pmem_refcount s) (u32 pa ≫ PGSHIFT) = Some c →
  rc_write (u32 pa ≫ PGSHIFT) x s =
  Done () (set_refcount (<[Z.to_nat (u32 pa ≫ PGSHIFT) := x]> (pmem_refcount s)) s).
Proof. intros Hc. unfold rc_write. by rewrite Hc. Qed.

Lemma dec_refcount_eq pa s c :
  refcount_at (pmem_refcount s) (u32 pa ≫ PGSHIFT) = Some c →
  dec_refcount pa s =
  Done () (set_refcount
             (<[Z.to_nat (u32 pa ≫ PGSHIFT) := u32 (c - 1)]> (pmem_refcount s)) s).
Proof.
  intros Hc. unfold dec_refcount, mbind, M_bind, rc_read. rewrite Hc.
  by eapply rc_update.
Qed.

Lemma inc_refcount_eq pa s c :
  refcount_at (pmem_refcount s) (u32 pa ≫ PGSHIFT) = Some c →
  inc_refcount pa s =
  Done () (set_refcount
             (<[Z.to_nat (u32 pa ≫ PGSHIFT) := u32 (c + 1)]> (pmem_refcount s)) s).
Proof.
  intros Hc. unfold inc_refcount, mbind, M_bind, rc_read. rewrite Hc.
  by eapply rc_update.
Qed.

Lemma accessor_undefined pa s :
  refcount_at (pmem_refcount s) (u32 pa ≫ PGSHIFT) = None →
  get_refcount pa s = Undefined ∧ inc_refcount pa s = Undefined ∧
  dec_refcount pa s = Undefined.
Proof.
  intros Hc.
  unfold get_refcount, inc_refcount, dec_refcount, mbind, M_bind, rc_read.
  by rewrite Hc.
Qed.

Lemma get_after_update pa x s c :
  refcount_at (pmem_refcount s) (u32 pa ≫ PGSHIFT) = Some c →
  let s' := set_refcount
              (<[Z.to_nat (u32 pa ≫ PGSHIFT) := x]> (pmem_refcount s)) s in
  get_refcount pa s' = Done x s'.
Proof.
  intros Hc s'. unfold get_refcount, rc_read, s'; sproj.
  rewrite refcount_at_insert; [done|]. rewrite Hc. eauto.
Qed.

Lemma kmem_inv_set_refcount i x s l :
  kmem_inv s l → 0 ≤ i →
  (kmem_use_lock s = 0 ∨ ∀ p, p ∈ l → pgidx p ≠ i) →
  kmem_inv (set_refcount (<[Z.to_nat i := x]> (pmem_refcount s)) s) l.
Proof.
  intros [Hc Hnd Hv Hn Ht Hz] Hi Hfree. constructor; sproj; try done.
  - by rewrite length_insert.
  - intros Hu p Hp. destruct Hfree as [?|Hfree]; [done|].
    rewrite refcount_at_insert_ne; auto using pgidx_nonneg.
    intros ->. by eapply Hfree.
Qed.

(** C10. [dec_refcount] and [inc_refcount] are unchecked arithmetic modulo
    2^32 on the table entry: they return normally with the entry at
    [(c - 1) mod 2^32] and [(c + 1) mod 2^32]. In particular a decrement at
    0 leaves 2^32 - 1, and a following [kfree] of that page does not panic:
    it takes the still-shared path, leaves 2^32 - 2 and does not touch the
    free list, the counter or page memory. *)
Theorem refcount_wraps :
  (∀ pa c s, refcount_at (pmem_refcount s) (u32 pa ≫ PGSHIFT) = Some c →
     (∃ s', dec_refcount pa s = Done () s' ∧
            get_refcount pa s' = Done (u32 (c - 1)) s') ∧
     (∃ s', inc_refcount pa s = Done () s' ∧
            get_refcount pa s' = Done (u32 (c + 1)) s')) ∧
  u32 (0 - 1) = 2 ^ 32 - 1 ∧ u32 (2 ^ 32 - 1 + 1) = 0 ∧
  (∀ v s, kmem_use_lock s ≠ 0 →
     v mod PGSIZE = 0 → kend ≤ v → V2P v < PHYSTOP →
     refcount_at (pmem_refcount s) (pgidx v) = Some 0 →
     ∃ s1 s2, dec_refcount (V2P v) s = Done () s1 ∧
              get_refcount (V2P v) s1 = Done (2 ^ 32 - 1) s1 ∧
              kfree v s1 = Done () s2 ∧
              get_refcount (V2P v) s2 = Done (2 ^ 32 - 2) s2 ∧
              kmem_freelist s2 = kmem_freelist s ∧
              pmem_num_free_pages s2 = pmem_num_free_pages s ∧
              ram s2 = ram s).
Proof.
  split_and!; [|done..|].
  - intros pa c s Hc. split; eexists.
    + split; [by apply dec_refcount_eq|]. by eapply get_after_update.
    + split; [by apply inc_refcount_eq|]. by eapply get_after_update.
  - intros v s Hu Ha Hk Hp Hc.
    assert (u32 (V2P v) ≫ PGSHIFT = pgidx v) as Hidx.
    { unfold pgidx. rewrite (u32_id (V2P v)); [done|]. apply u32_range. }
    assert (refcount_at (pmem_refcount s) (u32 (V2P v) ≫ PGSHIFT) = Some 0)
      as Hc' by (by rewrite Hidx).
    set (s1 := set_refcount
          (<[Z.to_nat (pgidx v) := 2 ^ 32 - 1]> (pmem_refcount s)) s).
    assert (refcount_at (pmem_refcount s1) (pgidx v) = Some (2 ^ 32 - 1)) as Hc1.
    { unfold s1; sproj. apply refcount_at_insert. rewrite Hc. eauto. }
    exists s1, (set_lock false (drop_ref v (2 ^ 32 - 1) s1)). split_and!; try done.
    + rewrite (dec_refcount_eq _ _ 0 Hc'). by rewrite Hidx.
    + by rewrite get_refcount_V2P, Hc1.
    + apply kfree_shared; try done. by apply kfree_accepts_spec.
    + rewrite get_refcount_V2P. unfold drop_ref; sproj.
      rewrite refcount_at_insert; [done|]. rewrite Hc1. eauto.
Qed.

Lemma kmem_inv_consistent s l :
  kmem_inv s l →
  counter_consistent s ∧ freemem s = Done (Z.of_nat (length l)) s.
Proof.
  intros Hi.
  assert (freemem s = Done (Z.of_nat (length l)) s) as Hf
    by (unfold freemem, get; by rewrite (inv_count _ _ Hi)).
  split; [|done]. exists l. split; [by apply inv_chain in Hi|done].
Qed.

Lemma boot_inv fuel vs1 ve1 n1 vs2 ve2 n2 s0 :
  seed_range_ok vs1 ve1 n1 → seed_range_ok vs2 ve2 n2 →
  ve1 ≤ PGROUNDUP (u32 vs2) → (n1 < fuel)%nat → (n2 < fuel)%nat →
  kmem_freelist s0 = 0 → pmem_num_free_pages s0 = 0 →
  length (pmem_refcount s0) = Z.to_nat NPAGES →
  ∃ s l, (kinit1 fuel vs1 ve1;; kinit2 fuel vs2 ve2) s0 = Done () s ∧
         kmem_use_lock s = 1 ∧ kmem_inv s l ∧ length l = (n2 + n1)%nat.
Proof using kend_pos PHYSTOP_aligned.
  intros Hok1 Hok2 Hsep Hf1 Hf2 Hfl Hn Ht.
  destruct (kinit1_inv fuel vs1 ve1 n1 s0) as (s1 & Hk1 & Hu1 & Hi1); try done.
  destruct (kinit2_inv fuel vs2 ve2 n2 s1 _ Hok2 Hf2 Hu1 Hi1)
    as (s2 & Hk2 & Hu2 & _ & Hi2).
  { intros q Hq%elem_of_reverse%range_pages_lt.
    destruct Hok1 as (_ & _ & Hend & _). lia. }
  exists s2, (reverse (range_pages (PGROUNDUP (u32 vs2)) n2) ++
              reverse (range_pages (PGROUNDUP (u32 vs1)) n1)).
  split_and!; try done.
  - unfold mbind, M_bind. by rewrite Hk1.
  - rewrite length_app, !length_reverse.
    assert (∀ n p, length (range_pages p n) = n) as Hlen.
    { induction n as [|n IH]; intros p; simpl; [done|]. by rewrite IH. }
    by rewrite !Hlen.
Qed.

(** C1 (as amended). After [kinit1] and [kinit2] over two ascending ranges
    of the direct map the allocator is well-formed: the free list is a
    NULL-terminated chain of distinct valid pages, each with count 0, and the
    counter is its length. On every well-formed allocator [freemem] returns
    the length of the free list; [kalloc] and every branch of [kfree] (with
    [use_lock] still 0: for a page that is not on the list) lead to a
    well-formed allocator again or panic without touching list or counter;
    [get_refcount], [inc_refcount] and [dec_refcount] never change free
    list, counter or page memory, and keep the allocator well-formed unless
    they change the count of a free page. *)
Theorem counter_consistency :
  (∀ fuel vs1 ve1 n1 vs2 ve2 n2 s0,
     seed_range_ok vs1 ve1 n1 → seed_range_ok vs2 ve2 n2 →
     ve1 ≤ PGROUNDUP (u32 vs2) → (n1 < fuel)%nat → (n2 < fuel)%nat →
     kmem_freelist s0 = 0 → pmem_num_free_pages s0 = 0 →
     length (pmem_refcount s0) = Z.to_nat NPAGES →
     ∃ s l, (kinit1 fuel vs1 ve1;; kinit2 fuel vs2 ve2) s0 = Done () s ∧
            kmem_use_lock s = 1 ∧ kmem_inv s l ∧ length l = (n2 + n1)%nat) ∧
  (∀ s l, kmem_inv s l →
     counter_consistent s ∧ freemem s = Done (Z.of_nat (length l)) s ∧
     (∃ r s', kalloc s = Done r s' ∧ kmem_inv s' (tail l)) ∧
     (∀ v, 0 ≤ v < 2 ^ 32 → (kmem_use_lock s = 0 → v ∉ l) →
           (∃ msg s', kfree v s = Panic msg s' ∧ kmem_inv s' l) ∨
           (∃ s', kfree v s = Done () s' ∧
                  (kmem_inv s' l ∨ kmem_inv s' (v :: l)))) ∧
     (∀ pa,
        (get_refcount pa s = Undefined ∧ inc_refcount pa s = Undefined ∧
         dec_refcount pa s = Undefined) ∨
        (∃ c si sd,
           get_refcount pa s = Done c s ∧
           inc_refcount pa s = Done () si ∧ dec_refcount pa s = Done () sd ∧
           kmem_freelist si = kmem_freelist s ∧ kmem_freelist sd = kmem_freelist s ∧
           pmem_num_free_pages si = pmem_num_free_pages s ∧
           pmem_num_free_pages sd = pmem_num_free_pages s ∧
           ram si = ram s ∧ ram sd = ram s ∧
           (kmem_use_lock s = 0 ∨ (∀ p, p ∈ l → pgidx p ≠ u32 pa ≫ PGSHIFT) →
            kmem_inv si l ∧ kmem_inv sd l)))).
Proof using kend_pos PHYSTOP_aligned.
  split; [apply boot_inv|]. intros s l Hi.
  destruct (kmem_inv_consistent s l Hi) as [Hcc Hfm].
  split_and!; try done.
  - destruct (kalloc_inv s l Hi) as (r & s' & Hk & Hi' & _). eauto.
  - intros v Hv Hboot. by apply kfree_inv.
  - intros pa.
    destruct (refcount_at (pmem_refcount s) (u32 pa ≫ PGSHIFT)) as [c|] eqn:Hc;
      [right|left; by apply accessor_undefined].
    assert (0 ≤ u32 pa ≫ PGSHIFT) as Hnn
      by (apply Z.shiftr_nonneg, u32_range).
    do 3 eexists. split_and!.
    + unfold get_refcount, rc_read. by rewrite Hc.
    + by apply inc_refcount_eq.
    + by apply dec_refcount_eq.
    + done.
    + done.
    + done.
    + done.
    + done.
    + done.
    + intros Hfree. split; by apply kmem_inv_set_refcount.
Qed.

(** * Further properties of the code *)

(** ** Closed forms of [kfree] and [kalloc] *)

Lemma kfree_cases v s :
  kfree v s =
  if kfree_rejects v then Panic "kfree" s
  else if kmem_use_lock s =? 0 then Done () (push_page v s)
  else match refcount_at (pmem_refcount s) (pgidx v) with
       | None => Undefined
       | Some c =>
           if c =? 0 then Panic "kfree: refcount underflow" (set_lock true s)
           else if 0 <? u32 (c - 1)
                then Done () (set_lock false (drop_ref v c s))
                else Done () (set_lock false (push_page v (drop_ref v c s)))
       end.
Proof.
  destruct (kfree_rejects v) eqn:Hv; [by apply kfree_rejected|].
  destruct (Z.eqb_spec (kmem_use_lock s) 0) as [Hu|Hu]; [by apply kfree_seed|].
  destruct (refcount_at (pmem_refcount s) (pgidx v)) as [c|] eqn:Hc.
  - destruct (Z.eqb_spec c 0) as [->|Hc0]; [by apply kfree_underflow|].
    pose proof (u32_range (c - 1)).
    destruct (Z.ltb_spec 0 (u32 (c - 1))).
    + by apply kfree_shared.
    + apply kfree_last; try done. lia.
  - apply Z.eqb_neq in Hu. unfold pgidx in Hc. unfold kfree, rc_read.
    rewrite Hv.
    repeat first [rewrite Hu | rewrite Hc | progress mrun | progress sproj].
    done.
Qed.

Lemma kalloc_cases s :
  kalloc s =
  if kmem_freelist s =? 0 then Done 0 (lock_cycle s)
  else match refcount_at (pmem_refcount s) (pgidx (kmem_freelist s)) with
       | None => Undefined
       | Some _ =>
           Done (kmem_freelist s) (lock_cycle (pop_page (kmem_freelist s) s))
       end.
Proof.
  destruct (Z.eqb_spec (kmem_freelist s) 0) as [Hr|Hr]; [by apply kalloc_empty|].
  destruct (refcount_at (pmem_refcount s) (pgidx (kmem_freelist s)))
    as [c|] eqn:Hc.
  - apply kalloc_pop; [done|]. rewrite Hc. eauto.
  - apply Z.eqb_neq in Hr. unfold pgidx in Hc. unfold kalloc, rc_write. mrun.
    destruct (kmem_use_lock s =? 0) eqn:Hu;
      repeat first [rewrite Hr | rewrite Hu | rewrite Hc
                   | progress mrun | progress sproj];
      reflexivity.
Qed.

Lemma pgidx_lt v : V2P v < PHYSTOP → pgidx v < NPAGES.
Proof using PHYSTOP_aligned.
  intros Hlt. unfold pgidx, NPAGES, PGSHIFT.
  rewrite !Z.shiftr_div_pow2 by lia. change (2 ^ 12) with 4096.
  unfold PGSIZE in *.
  pose proof (Z.div_mod PHYSTOP 4096).
  apply Z.div_lt_upper_bound; lia.
Qed.

Lemma refcount_at_in_range t i :
  0 ≤ i < Z.of_nat (length t) → is_Some (refcount_at t i).
Proof.
  intros Hi. unfold refcount_at. destruct (Z.ltb_spec i 0); [lia|].
  apply lookup_lt_is_Some. lia.
Qed.

Lemma push_page_frame v s :
  kmem_use_lock (push_page v s) = kmem_use_lock s ∧
  kmem_lock (push_page v s) = kmem_lock s ∧
  pmem_refcount (push_page v s) = pmem_refcount s ∧
  kmem_freelist (push_page v s) = v ∧
  ∀ a, ¬ (v ≤ a < v + PGSIZE) → ram (push_page v s) a = ram s a.
Proof.
  unfold push_page; sproj. split_and!; try done.
  intros a Ha. by apply push_ram_outside.
Qed.

Lemma lock_cycle_lock s :
  kmem_lock (lock_cycle s) =
  if kmem_use_lock s =? 0 then kmem_lock s else false.
Proof. unfold lock_cycle. by destruct (kmem_use_lock s =? 0). Qed.

(** X1. While [use_lock] is 0, [kfree] of an accepted address never looks at
    the reference-count table and never takes the lock, whatever the page's
    count is: it poisons bytes 4 .. 4095 of the page, stores the old head
    in its first word, makes the page the head and counts it. *)
Theorem kfree_boot_path (v : Z) (s : state) :
  kmem_use_lock s = 0 →
  v mod PGSIZE = 0 → kend ≤ v → V2P v < PHYSTOP →
  ∃ s', kfree v s = Done () s' ∧
        pmem_refcount s' = pmem_refcount s ∧
        kmem_lock s' = kmem_lock s ∧
        kmem_use_lock s' = 0 ∧
        kmem_freelist s' = v ∧
        (0 ≤ kmem_freelist s < 2 ^ 32 → load32 (ram s') v = kmem_freelist s) ∧
        (∀ a, v + 4 ≤ a < v + PGSIZE → ram s' a = 1) ∧
        (∀ a, ¬ (v ≤ a < v + PGSIZE) → ram s' a = ram s a) ∧
        pmem_num_free_pages s' = s32 (pmem_num_free_pages s + 1).
Proof.
  intros Hu Ha Hk Hp. exists (push_page v s).
  split; [apply kfree_seed; [by apply kfree_accepts_spec|done]|].
  unfold push_page; sproj. split_and!; try done.
  - apply push_ram_link.
  - intros a Hr. by apply push_ram_poison.
  - intros a Hr. by apply push_ram_outside.
Qed.

(** X2. [kfree] never indexes outside [pmem.refcount]: when the table has
    its declared [PHYSTOP >> PGSHIFT] entries and [PHYSTOP] is page-aligned,
    the bounds check at the top of [kfree] keeps every table access in
    range, so each call either returns or panics. *)
Theorem kfree_memory_safe (v : Z) (s : state) :
  length (pmem_refcount s) = Z.to_nat NPAGES →
  (∃ s', kfree v s = Done () s') ∨ (∃ msg s', kfree v s = Panic msg s').
Proof using PHYSTOP_aligned.
  intros Ht. rewrite kfree_cases.
  destruct (kfree_rejects v) eqn:Hv; [right; eauto|].
  destruct (kmem_use_lock s =? 0); [left; eauto|].
  apply kfree_accepts_spec in Hv as (_ & _ & Hp%pgidx_lt).
  destruct (refcount_at_in_range (pmem_refcount s) (pgidx v)) as [c ->].
  { pose proof (pgidx_nonneg v). lia. }
  destruct (c =? 0); [right; eauto|].
  destruct (0 <? u32 (c - 1)); left; eauto.
Qed.

(** X3. Whatever its argument and whatever the outcome, [kfree] leaves
    [use_lock] alone, writes no byte outside the 4096 bytes of the page it
    was given and changes no table entry other than that page's. *)
Theorem kfree_frame (v : Z) (s : state) :
  match kfree v s with
  | Done _ s' | Panic _ s' =>
      kmem_use_lock s' = kmem_use_lock s ∧
      (∀ a, ¬ (v ≤ a < v + PGSIZE) → ram s' a = ram s a) ∧
      (∀ i, i ≠ pgidx v →
            refcount_at (pmem_refcount s') i = refcount_at (pmem_refcount s) i)
  | Undefined | OutOfFuel => True
  end.
Proof.
  assert (∀ c i, i ≠ pgidx v →
            refcount_at (pmem_refcount (drop_ref v c s)) i =
            refcount_at (pmem_refcount s) i) as Hdrop.
  { intros c i Hi. unfold drop_ref; sproj. unfold refcount_at.
    destruct (Z.ltb_spec i 0); [done|].
    apply list_lookup_insert_ne. pose proof (pgidx_nonneg v). lia. }
  rewrite kfree_cases.
  destruct (kfree_rejects v); [done|].
  destruct (kmem_use_lock s =? 0).
  { destruct (push_page_frame v s) as (? & _ & Hrc & _ & ?).
    split_and!; first [done | intros i _; by rewrite Hrc]. }
  destruct (refcount_at (pmem_refcount s) (pgidx v)) as [c|]; [|done].
  destruct (c =? 0); [done|].
  destruct (0 <? u32 (c - 1)).
  - split_and!; first [done | apply Hdrop].
  - destruct (push_page_frame v (drop_ref v c s)) as (? & _ & Hrc & _ & ?).
    split_and!; first [done | intros i Hi; sproj; rewrite Hrc; by apply Hdrop].
Qed.

(** X4. Lock discipline. While [use_lock] is 0 neither [kfree] nor [kalloc]
    touches the lock. Once it is set, the lock is free after every return of
    [kfree] (the still-shared early return included) and of [kalloc]
    (failure included), and it is held when [kfree] panics on a count of 0. *)
Theorem lock_discipline (s : state) :
  (∀ v s', kfree v s = Done () s' →
           kmem_lock s' = if kmem_use_lock s =? 0 then kmem_lock s else false) ∧
  (∀ r s', kalloc s = Done r s' →
           kmem_lock s' = if kmem_use_lock s =? 0 then kmem_lock s else false) ∧
  (∀ v s', kfree v s = Panic "kfree: refcount underflow" s' →
           kmem_lock s' = true).
Proof.
  split_and!.
  - intros v s'. rewrite kfree_cases.
    destruct (kfree_rejects v); [done|].
    destruct (kmem_use_lock s =? 0); [intros [= <-]; reflexivity|].
    destruct (refcount_at (pmem_refcount s) (pgidx v)) as [c|]; [|done].
    destruct (c =? 0); [done|].
    destruct (0 <? u32 (c - 1)); intros [= <-]; reflexivity.
  - intros r s'. rewrite kalloc_cases.
    destruct (kmem_freelist s =? 0).
    { intros [= _ <-]. apply lock_cycle_lock. }
    destruct (refcount_at _ _); [|done].
    intros [= _ <-]. apply (lock_cycle_lock (pop_page _ s)).
  - intros v s'. rewrite kfree_cases.
    destruct (kfree_rejects v); [done|].
    destruct (kmem_use_lock s =? 0); [done|].
    destruct (refcount_at (pmem_refcount s) (pgidx v)) as [c|]; [|done].
    destruct (c =? 0); [intros [= <-]; reflexivity|].
    destruct (0 <? u32 (c - 1)); done.
Qed.

Lemma pop_page_frame r s :
  kmem_use_lock (pop_page r s) = kmem_use_lock s ∧
  kmem_lock (pop_page r s) = kmem_lock s ∧
  ram (pop_page r s) = ram s ∧
  kmem_freelist (pop_page r s) = load32 (ram s) r ∧
  pmem_num_free_pages (pop_page r s) = s32 (pmem_num_free_pages s - 1).
Proof. by unfold pop_page; sproj. Qed.

(** X5. [kalloc] returns the head of the free list as it finds it and never
    writes page memory or [use_lock]. On failure (NULL) it changes neither
    the counter nor the table; on success it unlinks the head, lowers the
    counter and sets the count of the returned page to 1, leaving every
    other table entry as it was. *)
Theorem kalloc_frame (s : state) (r : Z) (s' : state) :
  kalloc s = Done r s' →
  r = kmem_freelist s ∧ ram s' = ram s ∧ kmem_use_lock s' = kmem_use_lock s ∧
  (∀ i, i ≠ pgidx r →
        refcount_at (pmem_refcount s') i = refcount_at (pmem_refcount s) i) ∧
  (r = 0 → pmem_refcount s' = pmem_refcount s ∧
           pmem_num_free_pages s' = pmem_num_free_pages s ∧
           kmem_freelist s' = 0) ∧
  (r ≠ 0 → refcount_at (pmem_refcount s') (pgidx r) = Some 1 ∧
           kmem_freelist s' = load32 (ram s) r ∧
           pmem_num_free_pages s' = s32 (pmem_num_free_pages s - 1)).
Proof.
  rewrite kalloc_cases.
  destruct (Z.eqb_spec (kmem_freelist s) 0) as [Hz|Hnz].
  - intros [= <- <-].
    rewrite lock_cycle_ram, lock_cycle_use_lock, lock_cycle_refcount,
      lock_cycle_num, lock_cycle_freelist.
    by split_and!.
  - destruct (refcount_at (pmem_refcount s) (pgidx (kmem_freelist s)))
      as [c|] eqn:Hc; [|done].
    intros [= <- <-].
    rewrite lock_cycle_ram, lock_cycle_use_lock, lock_cycle_refcount,
      lock_cycle_num, lock_cycle_freelist.
    destruct (pop_page_frame (kmem_freelist s) s) as (? & _ & ? & ? & ?).
    split_and!; try done.
    + intros i Hi. by apply pop_page_refcount_other.
    + intros _. split_and!; try done.
      unfold pop_page; sproj. apply refcount_at_insert. rewrite Hc. eauto.
Qed.

Lemma kalloc_after_push v s0 b :
  v ≠ 0 → is_Some (refcount_at (pmem_refcount s0) (pgidx v)) →
  let s1 := set_lock b (push_page v s0) in
  kalloc s1 = Done v (lock_cycle (pop_page v s1)) ∧
  ram (lock_cycle (pop_page v s1)) = push_ram (ram s0) v (kmem_freelist s0) ∧
  kmem_freelist (lock_cycle (pop_page v s1)) =
    load32 (push_ram (ram s0) v (kmem_freelist s0)) v.
Proof.
  intros Hv Hsome s1.
  assert (kmem_freelist s1 = v) as Hh by reflexivity.
  assert (pmem_refcount s1 = pmem_refcount s0) as Hrc by reflexivity.
  assert (ram s1 = push_ram (ram s0) v (kmem_freelist s0)) as Hram
    by reflexivity.
  split_and!.
  - rewrite <- Hh at 1 2. apply kalloc_pop; rewrite Hh; [done|].
    by rewrite Hrc.
  - rewrite lock_cycle_ram. exact Hram.
  - rewrite lock_cycle_freelist.
    destruct (pop_page_frame v s1) as (_ & _ & _ & -> & _). by rewrite Hram.
Qed.

(** X6. [kalloc] does not clean the page it hands out: when a page is freed
    (through the bootstrap path, or as the last owner) and allocated again
    at once, the caller receives it with bytes 4 .. 4095 still holding the
    poison byte 1 and the first word holding the old list head. *)
Theorem kalloc_returns_poisoned (v : Z) (s : state) :
  v mod PGSIZE = 0 → kend ≤ v → V2P v < PHYSTOP →
  is_Some (refcount_at (pmem_refcount s) (pgidx v)) →
  kmem_use_lock s = 0 ∨ refcount_at (pmem_refcount s) (pgidx v) = Some 1 →
  ∃ s1 s2, kfree v s = Done () s1 ∧ kalloc s1 = Done v s2 ∧
           (∀ a, v + 4 ≤ a < v + PGSIZE → ram s2 a = 1) ∧
           (0 ≤ kmem_freelist s < 2 ^ 32 →
            load32 (ram s2) v = kmem_freelist s ∧
            kmem_freelist s2 = kmem_freelist s).
Proof using kend_pos.
  intros Ha Hk Hp Hsome Hmode.
  assert (kfree_rejects v = false) as Hv by (by apply kfree_accepts_spec).
  assert (v ≠ 0) as Hv0 by lia.
  assert (∃ s0 b, kfree v s = Done () (set_lock b (push_page v s0)) ∧
                  ram s0 = ram s ∧ kmem_freelist s0 = kmem_freelist s ∧
                  is_Some (refcount_at (pmem_refcount s0) (pgidx v)))
    as (s0 & b & Hf & Hram & Hfl & Hsome0).
  { destruct (Z.eq_dec (kmem_use_lock s) 0) as [Hu|Hu].
    - exists s, (kmem_lock s). split_and!; [|reflexivity|reflexivity|exact Hsome].
      rewrite kfree_seed by assumption. reflexivity.
    - destruct Hmode as [?|Hc]; [contradiction|].
      exists (drop_ref v 1 s), false.
      split_and!; [|reflexivity|reflexivity|].
      + rewrite (kfree_last v 1) by (assumption || lia || reflexivity).
        reflexivity.
      + unfold drop_ref; sproj. rewrite refcount_at_insert by exact Hsome.
        eauto. }
  destruct (kalloc_after_push v s0 b Hv0 Hsome0) as (Hk1 & Hr2 & Hf2).
  rewrite Hram, Hfl in Hr2, Hf2.
  do 2 eexists. split; [exact Hf|]. split; [exact Hk1|].
  rewrite Hr2, Hf2. split.
  - intros a Hr. by apply push_ram_poison.
  - intros Hr. by rewrite push_ram_link.
Qed.

(** X7. Round trip. On a well-formed allocator with refcounting on,
    [kalloc] followed by [kfree] of the page it returned brings back the
    same free list, the same counter and the same table; page memory
    differs at most inside the returned page, whose link is as before. *)
Theorem kalloc_kfree_roundtrip (s : state) (p : Z) (l : list Z) :
  kmem_inv s (p :: l) → kmem_use_lock s ≠ 0 →
  ∃ s1 s2, kalloc s = Done p s1 ∧ kfree p s1 = Done () s2 ∧
           kmem_freelist s2 = kmem_freelist s ∧
           pmem_num_free_pages s2 = pmem_num_free_pages s ∧
           pmem_refcount s2 = pmem_refcount s ∧
           load32 (ram s2) p = load32 (ram s) p ∧
           (∀ a, ¬ (p ≤ a < p + PGSIZE) → ram s2 a = ram s a) ∧
           kmem_inv s2 (p :: l).
Proof using kend_pos PHYSTOP_aligned.
  intros Hi Hu.
  pose proof (inv_chain _ _ Hi) as (Hh & Hp0 & Hc)%chain_head.
  pose proof (inv_valid _ _ Hi) as [Hvp Hvl]%Forall_cons.
  pose proof (inv_nodup _ _ Hi) as [Hnin Hnd]%NoDup_cons.
  assert (Z.of_nat (length (p :: l)) ≤ 2 ^ 20) as Hb
    by (apply free_pages_bound; [by apply NoDup_cons|by constructor]).
  assert (refcount_at (pmem_refcount s) (pgidx p) = Some 0) as Hz.
  { apply (inv_zero _ _ Hi Hu). apply elem_of_cons. auto. }
  set (s1 := lock_cycle (pop_page p s)).
  assert (kmem_inv s1 l) as Hi1 by (by apply kmem_inv_lock_cycle, kmem_inv_pop).
  assert (kmem_use_lock s1 ≠ 0) as Hu1 by (unfold s1; by rewrite lock_cycle_use_lock).
  assert (refcount_at (pmem_refcount s1) (pgidx p) = Some 1) as Hone.
  { unfold s1. rewrite lock_cycle_refcount. by eapply pop_page_refcount. }
  destruct (kfree_inv_last p 1 s1 l) as [Hf Hi2]; try done.
  exists s1, (set_lock false (push_page p (drop_ref p 1 s1))).
  split; [by eapply kalloc_cons|]. split; [done|].
  assert (pmem_refcount s1 = <[Z.to_nat (pgidx p) := 1]> (pmem_refcount s)) as Hrc1
    by (unfold s1; by rewrite lock_cycle_refcount).
  assert (ram s1 = ram s) as Hram1 by (unfold s1; by rewrite lock_cycle_ram).
  assert (kmem_freelist s1 = load32 (ram s) p) as Hfl1
    by (unfold s1; by rewrite lock_cycle_freelist).
  assert (pmem_num_free_pages s1 = s32 (pmem_num_free_pages s - 1)) as Hn1
    by (unfold s1; by rewrite lock_cycle_num).
  unfold push_page, drop_ref; sproj. split_and!.
  - done.
  - rewrite Hn1, (inv_count _ _ Hi). simpl length in *.
    rewrite (s32_id (_ - 1)) by lia. rewrite Z.sub_add. apply s32_id. lia.
  - rewrite Hrc1, list_insert_insert_eq. change (u32 (1 - 1)) with 0.
    apply list_insert_id. unfold refcount_at in Hz.
    by destruct (pgidx p <? 0).
  - rewrite Hram1, Hfl1. apply push_ram_link.
    eapply chain_head_range; eauto.
  - intros a Ha. rewrite Hram1. by apply push_ram_outside.
  - done.
Qed.

Lemma drop_ref_count v c s :
  is_Some (refcount_at (pmem_refcount s) (pgidx v)) →
  refcount_at (pmem_refcount (set_lock false (drop_ref v c s))) (pgidx v) =
  Some (u32 (c - 1)).
Proof. intros Hs. unfold drop_ref; sproj. by apply refcount_at_insert. Qed.

Lemma kfree_many_shared n : ∀ s l v,
  kmem_inv s l → valid_page v → kmem_use_lock s ≠ 0 →
  refcount_at (pmem_refcount s) (pgidx v) = Some (Z.of_nat (S n)) →
  Z.of_nat (S n) < 2 ^ 32 →
  ∃ s1, kfree_many n v s = Done () s1 ∧ kmem_inv s1 l ∧
        kmem_use_lock s1 = kmem_use_lock s ∧
        refcount_at (pmem_refcount s1) (pgidx v) = Some 1 ∧
        kmem_freelist s1 = kmem_freelist s ∧
        pmem_num_free_pages s1 = pmem_num_free_pages s ∧
        ram s1 = ram s.
Proof using PHYSTOP_aligned.
  induction n as [|n IH]; intros s l v Hi Hv Hu Hc Hlt.
  - exists s. by split_and!.
  - assert (u32 (Z.of_nat (S (S n)) - 1) = Z.of_nat (S n)) as Hdec
      by (rewrite u32_id; lia).
    destruct (kfree_inv_shared v (Z.of_nat (S (S n))) s l Hi Hv Hu Hc)
      as [Hf Hi1]; [lia|rewrite Hdec; lia|].
    set (s' := set_lock false (drop_ref v (Z.of_nat (S (S n))) s)) in *.
    destruct (IH s' l v) as (s1 & Hm & Hi2 & Hu2 & Hone & Hfl & Hnum & Hram);
      try done; [|lia|].
    { unfold s'. rewrite drop_ref_count by (rewrite Hc; eauto).
      by rewrite Hdec. }
    exists s1. split_and!; try done.
    simpl kfree_many. unfold mbind, M_bind. by rewrite Hf.
Qed.

(** X8. A page with [n + 1] owners needs [n + 1] calls of [kfree] to reach
    the free list. On a well-formed allocator with refcounting on, the
    first [n] calls only lower the count to 1 and change nothing else, the
    next call puts the page at the head of the free list with count 0, and
    one more call panics with "kfree: refcount underflow". *)
Theorem shared_page_last_free (n : nat) (s : state) (l : list Z) (v : Z) :
  kmem_inv s l → valid_page v → kmem_use_lock s ≠ 0 →
  refcount_at (pmem_refcount s) (pgidx v) = Some (Z.of_nat (S n)) →
  Z.of_nat (S n) < 2 ^ 32 →
  ∃ s1 s2 s3,
    kfree_many n v s = Done () s1 ∧
    kmem_inv s1 l ∧ refcount_at (pmem_refcount s1) (pgidx v) = Some 1 ∧
    kmem_freelist s1 = kmem_freelist s ∧
    pmem_num_free_pages s1 = pmem_num_free_pages s ∧ ram s1 = ram s ∧
    kfree v s1 = Done () s2 ∧
    kmem_inv s2 (v :: l) ∧ kmem_freelist s2 = v ∧
    refcount_at (pmem_refcount s2) (pgidx v) = Some 0 ∧
    pmem_num_free_pages s2 = pmem_num_free_pages s + 1 ∧
    kfree v s2 = Panic "kfree: refcount underflow" s3.
Proof using kend_pos PHYSTOP_aligned.
  intros Hi Hv Hu Hc Hlt.
  destruct (kfree_many_shared n s l v)
    as (s1 & Hm & Hi1 & Hu1 & Hone & Hfl & Hnum & Hram); try done.
  assert (kmem_use_lock s1 ≠ 0) as Hu1' by (by rewrite Hu1).
  destruct (kfree_inv_last v 1 s1 l) as [Hf Hi2]; try done.
  set (s2 := set_lock false (push_page v (drop_ref v 1 s1))) in *.
  assert (kmem_use_lock s2 ≠ 0) as Hu2 by exact Hu1'.
  assert (refcount_at (pmem_refcount s2) (pgidx v) = Some 0) as Hz.
  { apply (inv_zero _ _ Hi2 Hu2). apply elem_of_cons. auto. }
  exists s1, s2, (set_lock true s2). split_and!; try done.
  - rewrite (inv_count _ _ Hi2), (inv_count _ _ Hi). simpl length. lia.
  - apply kfree_underflow; try done. by apply valid_page_accepted.
Qed.

Lemma set_refcount_id s t : t = pmem_refcount s → set_refcount t s = s.
Proof. intros ->. by destruct s. Qed.

(** X9. Round trip of the accessors. On an in-range entry holding a [uint],
    [inc_refcount] followed by [dec_refcount], and [dec_refcount] followed
    by [inc_refcount], both return to exactly the state they started from,
    also across the wrap at 0 and at 2^32 - 1. *)
Theorem inc_dec_roundtrip (pa c : Z) (s : state) :
  refcount_at (pmem_refcount s) (u32 pa ≫ PGSHIFT) = Some c →
  0 ≤ c < 2 ^ 32 →
  (inc_refcount pa;; dec_refcount pa) s = Done () s ∧
  (dec_refcount pa;; inc_refcount pa) s = Done () s.
Proof.
  intros Hc Hr.
  assert (pmem_refcount s !! Z.to_nat (u32 pa ≫ PGSHIFT) = Some c) as Hl.
  { unfold refcount_at in Hc. by destruct (_ <? 0). }
  assert (∀ x, refcount_at
            (<[Z.to_nat (u32 pa ≫ PGSHIFT) := x]> (pmem_refcount s))
            (u32 pa ≫ PGSHIFT) = Some x) as Hupd.
  { intros x. apply refcount_at_insert. rewrite Hc. eauto. }
  assert (u32 (u32 (c + 1) - 1) = c) as Hid1.
  { unfold u32. rewrite Zminus_mod_idemp_l.
    replace (c + 1 - 1) with c by lia. apply Z.mod_small. lia. }
  assert (u32 (u32 (c - 1) + 1) = c) as Hid2.
  { unfold u32. rewrite Zplus_mod_idemp_l.
    replace (c - 1 + 1) with c by lia. apply Z.mod_small. lia. }
  split; unfold mbind at 1, M_bind at 1.
  - rewrite (inc_refcount_eq _ _ c Hc).
    rewrite (dec_refcount_eq _ _ (u32 (c + 1))) by apply Hupd.
    sproj. rewrite list_insert_insert_eq, Hid1. f_equal.
    destruct s; unfold set_refcount; sproj. f_equal.
    by apply list_insert_id.
  - rewrite (dec_refcount_eq _ _ c Hc).
    rewrite (inc_refcount_eq _ _ (u32 (c - 1))) by apply Hupd.
    sproj. rewrite list_insert_insert_eq, Hid2. f_equal.
    destruct s; unfold set_refcount; sproj. f_equal.
    by apply list_insert_id.
Qed.

(** X10. The accessors check no bounds. With a table of the declared size
    and a page-aligned [PHYSTOP], [get_refcount], [inc_refcount] and
    [dec_refcount] are defined exactly for physical addresses below
    [PHYSTOP]; at or above it they index outside [pmem.refcount]. *)
Theorem accessor_bounds (pa : Z) (s : state) :
  length (pmem_refcount s) = Z.to_nat NPAGES →
  (u32 pa < PHYSTOP →
   ∃ c si sd, get_refcount pa s = Done c s ∧
              inc_refcount pa s = Done () si ∧
              dec_refcount pa s = Done () sd) ∧
  (PHYSTOP ≤ u32 pa →
   get_refcount pa s = Undefined ∧ inc_refcount pa s = Undefined ∧
   dec_refcount pa s = Undefined).
Proof using PHYSTOP_aligned.
  intros Ht.
  pose proof (u32_range pa) as Hr.
  assert (0 ≤ u32 pa ≫ PGSHIFT) as Hnn by (apply Z.shiftr_nonneg; lia).
  assert (u32 pa ≫ PGSHIFT < NPAGES ↔ u32 pa < PHYSTOP) as Hiff.
  { unfold NPAGES, PGSHIFT. rewrite !Z.shiftr_div_pow2 by lia.
    change (2 ^ 12) with 4096. unfold PGSIZE in *.
    pose proof (Z.div_mod PHYSTOP 4096).
    pose proof (Z.div_mod (u32 pa) 4096).
    pose proof (Z.mod_pos_bound (u32 pa) 4096). lia. }
  split.
  - intros Hlt%Hiff.
    destruct (refcount_at_in_range (pmem_refcount s) (u32 pa ≫ PGSHIFT))
      as [c Hc]; [lia|].
    exists c. do 2 eexists. split_and!.
    + unfold get_refcount, rc_read. by rewrite Hc.
    + by apply inc_refcount_eq.
    + by apply dec_refcount_eq.
  - intros Hge. apply accessor_undefined.
    unfold refcount_at. destruct (_ <? 0); [done|].
    apply lookup_ge_None. lia.
Qed.

(** ** Seeding ranges *)

Lemma PGROUNDUP_bounds x :
  0 ≤ x → x + PGSIZE - 1 < 2 ^ 32 → x ≤ PGROUNDUP x < x + PGSIZE.
Proof.
  intros H0 Hmax. rewrite PGROUNDUP_eq. rewrite u32_id by (unfold PGSIZE in *; lia).
  unfold PGSIZE in *.
  pose proof (Z.div_mod (x + 4096 - 1) 4096).
  pose proof (Z.mod_pos_bound (x + 4096 - 1) 4096). lia.
Qed.



(** X11. Short ranges. For a range that starts at least two pages below
    the top of the 32-bit address space, a range shorter than one page, and
    likewise an empty or reversed one, frees nothing and is not an error:
    [freerange] returns with the allocator exactly as it was, whatever
    [use_lock] is. A start address inside the last page of the address
    space is rounded up to 0 instead: if [vend] is at least one page,
    [freerange] then panics with "kfree" at address 0 before it changes
    anything. *)
Theorem freerange_short_range (fuel : nat) (vstart vend : Z) (s : state) :
  (0 < fuel)%nat →
  (0 ≤ vstart → vend < vstart + PGSIZE → vstart + 2 * PGSIZE ≤ 2 ^ 32 →
   freerange fuel vstart vend s = Done () s) ∧
  (2 ^ 32 - PGSIZE < vstart < 2 ^ 32 → PGSIZE ≤ vend →
   freerange fuel vstart vend s = Panic "kfree" s).
Proof using kend_pos.
  intros Hf. destruct fuel as [|fuel]; [lia|]. split.
  - intros H0 Hshort Hmax. unfold freerange.
    assert (u32 vstart = vstart) as ->
      by (apply u32_id; unfold PGSIZE in *; lia).
    pose proof (PGROUNDUP_bounds vstart) as Hp. unfold PGSIZE in *.
    simpl freerange_loop. unfold PGSIZE.
    rewrite u32_id by lia.
    destruct (Z.leb_spec (PGROUNDUP vstart + 4096) vend); [lia|]. done.
  - intros Htop Hend. unfold freerange.
    assert (u32 vstart = vstart) as ->
      by (apply u32_id; unfold PGSIZE in *; lia).
    assert (PGROUNDUP vstart = 0) as ->.
    { rewrite PGROUNDUP_eq. unfold u32, PGSIZE in *.
      assert ((vstart + 4096 - 1) mod 2 ^ 32 = vstart + 4096 - 1 - 2 ^ 32) as ->.
      { symmetry. apply (Z.mod_unique_pos _ _ 1); lia. }
      rewrite Z.div_small by lia. done. }
    simpl freerange_loop. unfold PGSIZE in *.
    change (u32 (0 + 4096)) with 4096.
    destruct (Z.leb_spec 4096 vend); [|lia].
    unfold mbind, M_bind. rewrite kfree_rejected; [done|].
    apply kfree_rejects_spec. lia.
Qed.


Lemma freerange_loop_rejected k : ∀ fuel p vend s,
  (k < fuel)%nat → kmem_use_lock s = 0 →
  (∀ v, v ∈ range_pages p k → kfree_rejects v = false) →
  kfree_rejects (p + Z.of_nat k * PGSIZE) = true →
  0 ≤ p → p + (Z.of_nat k + 1) * PGSIZE ≤ vend →
  p + (Z.of_nat k + 1) * PGSIZE < 2 ^ 32 →
  freerange_loop fuel p vend s =
  Panic "kfree" (seed_pages s (range_pages p k)).
Proof.
  induction k as [|k IH]; intros fuel p vend s Hf Hu Hv Hbad Hp Hend Hmax;
    (destruct fuel as [|fuel]; [lia|]); simpl freerange_loop;
    unfold PGSIZE in *; rewrite (u32_id (p + 4096)) by lia;
    (destruct (Z.leb_spec (p + 4096) vend); [|lia]).
  - unfold mbind, M_bind. rewrite kfree_rejected; [done|].
    by replace p with (p + Z.of_nat 0 * 4096) by lia.
  - unfold mbind, M_bind.
    rewrite kfree_seed; [|apply Hv, elem_of_cons; by left|done].
    simpl range_pages. rewrite seed_pages_cons.
    apply IH; [lia|done| | |unfold PGSIZE; lia..].
    + intros v Hin. apply Hv, elem_of_cons. by right.
    + unfold PGSIZE. by replace (p + 4096 + Z.of_nat k * 4096)
        with (p + Z.of_nat (S k) * 4096) by lia.
Qed.

(** X13. Seeding is not atomic and stops at the first bad page. When the
    first [k] pages of the range are accepted by [kfree] and the next one
    is rejected (below [end], or at or above the physical ceiling), the
    bootstrap [freerange] panics with "kfree" after having pushed those [k]
    pages; [kinit2] then never sets [use_lock] or clears the table. *)
Theorem freerange_stops_at_rejected_page
    (fuel : nat) (vstart vend : Z) (k : nat) (s : state) :
  let p := PGROUNDUP (u32 vstart) in
  (k < fuel)%nat → kmem_use_lock s = 0 →
  (∀ v, v ∈ range_pages p k → kfree_rejects v = false) →
  kfree_rejects (p + Z.of_nat k * PGSIZE) = true →
  p + (Z.of_nat k + 1) * PGSIZE ≤ vend →
  p + (Z.of_nat k + 1) * PGSIZE < 2 ^ 32 →
  freerange fuel vstart vend s =
    Panic "kfree" (seed_pages s (range_pages p k)) ∧
  kinit2 fuel vstart vend s =
    Panic "kfree" (seed_pages s (range_pages p k)) ∧
  kmem_use_lock (seed_pages s (range_pages p k)) = 0 ∧
  pmem_refcount (seed_pages s (range_pages p k)) = pmem_refcount s.
Proof.
  intros p Hf Hu Hv Hbad Hend Hmax.
  assert (freerange fuel vstart vend s =
          Panic "kfree" (seed_pages s (range_pages p k))) as Hfr.
  { unfold freerange. apply freerange_loop_rejected; try done.
    apply PGROUNDUP_range. }
  split_and!; [done| | |].
  - unfold kinit2, mbind, M_bind. by rewrite Hfr.
  - by rewrite seed_pages_use_lock.
  - apply seed_pages_refcount.
Qed.

Lemma freerange_loop_fuel_mono fuel : ∀ fuel' p vend s,
  freerange_loop fuel p vend s ≠ OutOfFuel → (fuel ≤ fuel')%nat →
  freerange_loop fuel' p vend s = freerange_loop fuel p vend s.
Proof.
  induction fuel as [|fuel IH]; intros fuel' p vend s Hne Hle; [done|].
  destruct fuel' as [|fuel']; [lia|].
  simpl freerange_loop in *.
  destruct (u32 (p + PGSIZE) <=? vend); [|done].
  unfold mbind, M_bind in *.
  destruct (kfree p s) as [[] s'|msg s'| |]; try done.
  apply IH; [done|lia].
Qed.

Lemma freerange_loop_terminates k : ∀ fuel p vend s,
  p mod PGSIZE = 0 → 0 ≤ p < 2 ^ 32 →
  (p = 0 ∨ (2 ^ 32 - p) / PGSIZE ≤ Z.of_nat k) → (k < fuel)%nat →
  freerange_loop fuel p vend s ≠ OutOfFuel.
Proof using kend_pos.
  induction k as [|k IH]; intros fuel p vend s Hal Hr Hk Hf;
    (destruct fuel as [|fuel]; [lia|]); simpl freerange_loop;
    (destruct (u32 (p + PGSIZE) <=? vend); [|done]);
    unfold mbind, M_bind; unfold PGSIZE in *;
    pose proof (Z.div_mod p 4096);
    pose proof (Z.div_mod (2 ^ 32 - p) 4096);
    pose proof (Z.mod_pos_bound (2 ^ 32 - p) 4096).
  - assert (p = 0) as -> by lia.
    rewrite kfree_rejected; [done|]. apply kfree_rejects_spec. lia.
  - destruct (Z.eq_dec p 0) as [->|Hp0].
    { rewrite kfree_rejected; [done|]. apply kfree_rejects_spec. lia. }
    rewrite kfree_cases.
    assert (∀ s', freerange_loop fuel (u32 (p + 4096)) vend s' ≠ OutOfFuel)
      as Hnext.
    { intros s'. destruct (Z.eq_dec (p + 4096) (2 ^ 32)) as [Heq|Hne].
      - rewrite Heq. change (u32 (2 ^ 32)) with 0.
        apply IH; [done|lia|by left|lia].
      - rewrite u32_id by lia. apply IH; [|lia| |lia].
        + rewrite Z.add_mod, Hal by lia. done.
        + right. unfold PGSIZE.
          pose proof (Z.div_mod (2 ^ 32 - (p + 4096)) 4096).
          pose proof (Z.mod_pos_bound (2 ^ 32 - (p + 4096)) 4096). lia. }
    destruct (kfree_rejects p); [done|].
    destruct (kmem_use_lock s =? 0); [apply Hnext|].
    destruct (refcount_at _ _) as [c|]; [|done].
    destruct (c =? 0); [done|].
    destruct (0 <? u32 (c - 1)); apply Hnext.
Qed.

(** X14. The seeding loop always ends. Whatever the range and the state,
    also for a range that runs to the top of the address space and wraps
    around, [freerange] reaches an outcome within
    [(2^32 - PGROUNDUP(vstart)) / PGSIZE + 1] iterations, and more
    iterations never change that outcome: address 0 lies below [end], so a
    loop that wraps panics there at the latest. *)
Theorem freerange_terminates (vstart vend : Z) (s : state) :
  ∃ o, o ≠ OutOfFuel ∧
       ∀ fuel,
         (Z.to_nat ((2 ^ 32 - PGROUNDUP (u32 vstart)) / PGSIZE) < fuel)%nat →
         freerange fuel vstart vend s = o.
Proof using kend_pos.
  set (k := Z.to_nat ((2 ^ 32 - PGROUNDUP (u32 vstart)) / PGSIZE)).
  assert (freerange (S k) vstart vend s ≠ OutOfFuel) as Hne.
  { unfold freerange. apply (freerange_loop_terminates k); [| | |lia].
    - apply PGROUNDUP_aligned.
    - apply PGROUNDUP_range.
    - right. unfold k. pose proof (PGROUNDUP_range (u32 vstart)).
      rewrite Z2Nat.id; [lia|]. apply Z.div_pos; unfold PGSIZE; lia. }
  exists (freerange (S k) vstart vend s). split; [done|].
  intros fuel Hf. unfold freerange in *.
  apply freerange_loop_fuel_mono; [done|lia].
Qed.


(** X16. [kinit2] forgets allocations made before it. A page handed out by
    [kalloc] during the bootstrap phase has count 1, but the table clear at
    the end of [kinit2] sets it back to 0 while the page is not on the free
    list; the first [kfree] of that page afterwards panics with
    "kfree: refcount underflow". *)
Theorem kinit2_forgets_early_allocations
    (fuel : nat) (vstart vend : Z) (n : nat) (s : state) (p : Z) (l : list Z) :
  kmem_inv s (p :: l) → kmem_use_lock s = 0 →
  seed_range_ok vstart vend n → (n < fuel)%nat →
  (∀ q, q ∈ p :: l → q < PGROUNDUP (u32 vstart)) →
  ∃ s1 s2 s3 l2,
    kalloc s = Done p s1 ∧ get_refcount (V2P p) s1 = Done 1 s1 ∧
    kinit2 fuel vstart vend s1 = Done () s2 ∧
    kmem_inv s2 l2 ∧ (p ∉ l2) ∧
    get_refcount (V2P p) s2 = Done 0 s2 ∧
    kfree p s2 = Panic "kfree: refcount underflow" s3.
Proof using kend_pos PHYSTOP_aligned.
  intros Hi Hu Hok Hf Hbelow.
  pose proof (inv_valid _ _ Hi) as [Hvp _]%Forall_cons.
  pose proof (inv_nodup _ _ Hi) as [Hnin _]%NoDup_cons.
  pose proof (pgidx_range p Hvp) as Hidx.
  set (s1 := lock_cycle (pop_page p s)).
  assert (kmem_use_lock s1 = 0) as Hu1
    by (unfold s1; by rewrite lock_cycle_use_lock).
  assert (kmem_inv s1 l) as Hi1
    by (by apply kmem_inv_lock_cycle, kmem_inv_pop).
  destruct (kinit2_inv fuel vstart vend n s1 l Hok Hf Hu1 Hi1)
    as (s2 & Hk2 & Hu2 & Hrc2 & Hi2).
  { intros q Hq. apply Hbelow, elem_of_cons. auto. }
  assert (refcount_at (pmem_refcount s2) (pgidx p) = Some 0) as Hz.
  { rewrite Hrc2. unfold refcount_at.
    destruct (Z.ltb_spec (pgidx p) 0); [lia|]. apply lookup_replicate_2. lia. }
  exists s1, s2, (set_lock true s2). eexists. split_and!.
  - by eapply kalloc_cons.
  - rewrite get_refcount_V2P. unfold s1. rewrite lock_cycle_refcount.
    by rewrite (pop_page_refcount p s l).
  - done.
  - exact Hi2.
  - intros [Hin|Hin]%elem_of_app; [|done].
    apply elem_of_reverse, range_pages_elem in Hin as (k & Hk & Heq).
    specialize (Hbelow p ltac:(apply elem_of_cons; auto)).
    unfold PGSIZE in *. lia.
  - by rewrite get_refcount_V2P, Hz.
  - apply kfree_underflow; [by apply valid_page_accepted|lia|done].
Qed.

(** ** Sequences of calls *)

Lemma kalloc_use_lock s r s' :
  kalloc s = Done r s' → kmem_use_lock s' = kmem_use_lock s.
Proof.
  rewrite kalloc_cases. destruct (kmem_freelist s =? 0).
  { intros [= _ <-]. apply lock_cycle_use_lock. }
  destruct (refcount_at _ _); [|done].
  intros [= _ <-]. by rewrite lock_cycle_use_lock.
Qed.

Lemma kfree_done_use_lock v s s' :
  kfree v s = Done () s' → kmem_use_lock s' = kmem_use_lock s.
Proof.
  rewrite kfree_cases. destruct (kfree_rejects v); [done|].
  destruct (kmem_use_lock s =? 0); [by intros [= <-]|].
  destruct (refcount_at _ _) as [c|]; [|done].
  destruct (c =? 0); [done|].
  destruct (0 <? u32 (c - 1)); by intros [= <-].
Qed.

Lemma do_calls_cons_done c cs s s1 :
  do_call c s = Done () s1 → do_calls (c :: cs) s = do_calls cs s1.
Proof. intros H. simpl. unfold mbind, M_bind. by rewrite H. Qed.

Lemma do_calls_cons_panic c cs s msg s1 :
  do_call c s = Panic msg s1 → do_calls (c :: cs) s = Panic msg s1.
Proof. intros H. simpl. unfold mbind, M_bind. by rewrite H. Qed.

Lemma do_calls_cons_undefined c cs s :
  do_call c s = Undefined → do_calls (c :: cs) s = Undefined.
Proof. intros H. simpl. unfold mbind, M_bind. by rewrite H. Qed.

Lemma do_call_kalloc s r s1 :
  kalloc s = Done r s1 → do_call Kalloc s = Done () s1.
Proof. intros H. simpl. unfold mbind, M_bind. by rewrite H. Qed.

(** X17. Once refcounting is on, no sequence of [kalloc] and [kfree] calls
    can corrupt the allocator, whatever addresses are passed to [kfree]: a
    run started on a well-formed allocator either returns with a
    well-formed allocator, on which [freemem] is the length of the free
    list, or stops in a panic with the allocator still well-formed; it
    never indexes outside the table. *)
Theorem kalloc_kfree_runs_safe (cs : list call) : ∀ (s : state) (l : list Z),
  kmem_inv s l → kmem_use_lock s ≠ 0 → Forall alloc_free_only cs →
  (∃ s' l', do_calls cs s = Done () s' ∧ kmem_inv s' l' ∧
            freemem s' = Done (Z.of_nat (length l')) s') ∨
  (∃ msg s' l', do_calls cs s = Panic msg s' ∧ kmem_inv s' l').
Proof using kend_pos PHYSTOP_aligned.
  induction cs as [|c cs IH]; intros s l Hi Hu Hcs.
  { left. exists s, l. split_and!; [done..|].
    by destruct (kmem_inv_consistent s l Hi). }
  apply Forall_cons in Hcs as [Hc Hcs].
  destruct c as [|v|pa|pa|pa]; try done.
  - destruct (kalloc_inv s l Hi) as (r & s1 & Hk & Hi1 & _).
    rewrite (do_calls_cons_done Kalloc cs s s1) by (by apply do_call_kalloc in Hk).
    apply (IH s1 (tail l)); [done| |done].
    by rewrite (kalloc_use_lock _ _ _ Hk).
  - destruct (kfree_inv v s l Hi Hc) as [(msg & s1 & Hf & Hi1)|(s1 & Hf & Hi1)];
      [done| |].
    { right. exists msg, s1, l. split; [|done].
      by apply (do_calls_cons_panic (Kfree v)). }
    rewrite (do_calls_cons_done (Kfree v) cs s s1) by done.
    assert (kmem_use_lock s1 ≠ 0) as Hu1
      by (by rewrite (kfree_done_use_lock _ _ _ Hf)).
    destruct Hi1 as [Hi1|Hi1]; eapply IH; eauto.
Qed.

(** ** Links of the free list under arbitrary use *)

Lemma follow_null n m : follow n m 0 = 0.
Proof. by destruct n. Qed.

Lemma follow_next n m h : h ≠ 0 → follow (S n) m h = follow n m (load32 m h).
Proof. intros Hh. simpl. by destruct (Z.eqb_spec h 0). Qed.

Lemma chain_follow m h l n :
  chain m h l → Forall valid_page l →
  follow n m h = 0 ∨ valid_page (follow n m h).
Proof.
  revert h l. induction n as [|n IH]; intros h l Hc Hv.
  - destruct Hc; [by left|]. right. by apply Forall_cons in Hv as [? _].
  - destruct Hc as [|p l Hp Hc]; [by left|].
    rewrite follow_next by done. apply Forall_cons in Hv as [_ Hv]. eauto.
Qed.

Lemma kmem_inv_links_ok s l : kmem_inv s l → links_ok s.
Proof. intros Hi n. eapply chain_follow; [apply Hi|apply Hi]. Qed.

Lemma follow_push m v h :
  valid_page v →
  (∀ k, follow k m h = 0 ∨ valid_page (follow k m h)) →
  ∀ n a, (∀ k, follow k m a = 0 ∨ valid_page (follow k m a)) →
         follow n (push_ram m v h) a = 0 ∨
         valid_page (follow n (push_ram m v h) a).
Proof.
  intros Hv Hh. induction n as [|n IH]; intros a Ha.
  - apply (Ha 0%nat).
  - destruct (Z.eq_dec a 0) as [->|Ha0]; [by left|].
    rewrite follow_next by done.
    destruct (Z.eq_dec a v) as [->|Hne].
    + rewrite push_ram_link; [by apply IH|].
      destruct (Hh 0%nat) as [Hz|(Hr & _)]; simpl in *; lia.
    + destruct (Ha 0%nat) as [?|(_ & Hal & _)]; [done|]. simpl in Hal.
      destruct Hv as (_ & Hvl & _).
      rewrite push_ram_other_page by done.
      apply IH. intros k. specialize (Ha (S k)).
      by rewrite follow_next in Ha.
Qed.

Lemma links_ok_push v s :
  links_ok s → valid_page v → links_ok (push_page v s).
Proof.
  intros Hs Hv n. unfold push_page; sproj.
  destruct n as [|n]; [by right|].
  destruct (Z.eq_dec v 0) as [->|Hv0]; [by left|].
  rewrite follow_next by done.
  rewrite push_ram_link.
  - by apply follow_push.
  - destruct (Hs 0%nat) as [Hz|(Hr & _)]; simpl in *; lia.
Qed.

Lemma links_ok_pop s :
  links_ok s → kmem_freelist s ≠ 0 →
  links_ok (pop_page (kmem_freelist s) s).
Proof.
  intros Hs Hne n. unfold pop_page; sproj.
  specialize (Hs (S n)). by rewrite follow_next in Hs.
Qed.

Lemma links_ok_same s s' :
  ram s' = ram s → kmem_freelist s' = kmem_freelist s →
  links_ok s → links_ok s'.
Proof. intros Hr Hf Hs n. rewrite Hr, Hf. apply Hs. Qed.

Lemma links_ok_kfree v s :
  links_ok s → 0 ≤ v < 2 ^ 32 →
  match kfree v s with
  | Done _ s' | Panic _ s' => links_ok s'
  | Undefined | OutOfFuel => True
  end.
Proof.
  intros Hs Hr. rewrite kfree_cases.
  destruct (kfree_rejects v) eqn:Hv; [done|].
  assert (valid_page v) as Hvp
    by (apply kfree_accepts_spec in Hv; by split).
  destruct (kmem_use_lock s =? 0); [by apply links_ok_push|].
  destruct (refcount_at _ _) as [c|]; [|done].
  destruct (c =? 0); [by apply (links_ok_same s)|].
  destruct (0 <? u32 (c - 1)); [by apply (links_ok_same s)|].
  apply (links_ok_same (push_page v (drop_ref v c s))); [done..|].
  apply links_ok_push; [|done]. by apply (links_ok_same s).
Qed.

Lemma links_ok_kalloc s r s' :
  links_ok s → kalloc s = Done r s' →
  links_ok s' ∧ (r = 0 ∨ valid_page r).
Proof.
  intros Hs. rewrite kalloc_cases.
  destruct (Z.eqb_spec (kmem_freelist s) 0) as [Hz|Hnz].
  - intros [= <- <-]. split; [|by left].
    apply (links_ok_same s); [apply lock_cycle_ram|apply lock_cycle_freelist|done].
  - destruct (refcount_at _ _); [|done]. intros [= <- <-]. split.
    + apply (links_ok_same (pop_page (kmem_freelist s) s));
        [apply lock_cycle_ram|apply lock_cycle_freelist|].
      by apply links_ok_pop.
    + destruct (Hs 0%nat) as [?|?]; [done|by right].
Qed.

Lemma links_ok_rc_write i x s s' :
  links_ok s → rc_write i x s = Done () s' → links_ok s'.
Proof.
  intros Hs. unfold rc_write. destruct (refcount_at _ _); [|done].
  intros [= <-]. by apply (links_ok_same s).
Qed.

Lemma links_ok_do_call c s :
  links_ok s → call_in_range c →
  match do_call c s with
  | Done _ s' | Panic _ s' => links_ok s'
  | Undefined | OutOfFuel => True
  end.
Proof.
  intros Hs Hc. destruct c as [|v|pa|pa|pa]; simpl do_call.
  - unfold mbind, M_bind. destruct (kalloc s) as [r s'|msg s'| |] eqn:Hk;
      try done.
    + by destruct (links_ok_kalloc s r s' Hs Hk).
    + exfalso. revert Hk. rewrite kalloc_cases.
      destruct (kmem_freelist s =? 0); [done|]. by destruct (refcount_at _ _).
  - by apply links_ok_kfree.
  - unfold mbind, M_bind, get_refcount, rc_read.
    by destruct (refcount_at _ _).
  - unfold inc_refcount, mbind, M_bind, rc_read.
    destruct (refcount_at _ _) as [c|] eqn:Hc'; [|done].
    erewrite rc_update by done. by apply (links_ok_same s).
  - unfold dec_refcount, mbind, M_bind, rc_read.
    destruct (refcount_at _ _) as [c|] eqn:Hc'; [|done].
    erewrite rc_update by done. by apply (links_ok_same s).
Qed.

Lemma links_ok_do_calls cs : ∀ s,
  links_ok s → Forall call_in_range cs →
  match do_calls cs s with
  | Done _ s' | Panic _ s' => links_ok s'
  | Undefined | OutOfFuel => True
  end.
Proof.
  induction cs as [|c cs IH]; intros s Hs Hcs; [done|].
  apply Forall_cons in Hcs as [Hc Hcs].
  pose proof (links_ok_do_call c s Hs Hc) as H1.
  simpl do_calls. unfold mbind at 1, M_bind at 1.
  destruct (do_call c s) as [[] s1|msg s1| |]; try done.
  by apply IH.
Qed.

(** X18. Whatever calls were made before, [kalloc] only ever returns NULL or
    an address that passed the check of [kfree]: page-aligned, at or above
    [end], with its physical address below [PHYSTOP]. This holds after any
    sequence of [kalloc], [kfree] and accessor calls on an allocator that
    was well-formed once, also after double frees through the bootstrap
    path or counts changed behind the allocator's back, as long as page
    memory is written by the allocator only. *)
Theorem kalloc_returns_checked_pages
    (cs : list call) (s : state) (l : list Z) (s1 : state) (r : Z) (s2 : state) :
  kmem_inv s l → Forall call_in_range cs →
  do_calls cs s = Done () s1 → kalloc s1 = Done r s2 →
  r = 0 ∨ (r mod PGSIZE = 0 ∧ kend ≤ r ∧ V2P r < PHYSTOP).
Proof.
  intros Hi Hcs Hrun Hk.
  pose proof (links_ok_do_calls cs s (kmem_inv_links_ok s l Hi) Hcs) as H1.
  rewrite Hrun in H1.
  destruct (links_ok_kalloc s1 r s2 H1 Hk) as [_ [?|(_ & ? & ? & ?)]]; auto.
Qed.

(** X19. [kalloc] trusts exactly the [next] link stored in the first word of
    each free page. On a well-formed allocator a write to any other byte,
    in particular anywhere in a page that is not on the free list, does not
    change what the allocator hands out: allocating the whole pool returns
    the same pages in the same order as without the write. A 32-bit value
    written over the first word of the head page, however, is the head of
    the free list after the next [kalloc], whatever that value is. *)
Theorem kalloc_reads_only_next_links :
  (∀ s l a b,
     kmem_inv s l → (∀ p, p ∈ l → ¬ (p ≤ a < p + 4)) →
     ∃ s1 s2,
       kalloc_many (length l) s = Done l s1 ∧
       kalloc_many (length l) (set_ram (write8 (ram s) a b) s) = Done l s2) ∧
  (∀ s l x,
     kmem_inv s l → kmem_freelist s ≠ 0 → 0 ≤ x < 2 ^ 32 →
     ∃ s1,
       kalloc (set_ram (store32 (ram s) (kmem_freelist s) x) s) =
         Done (kmem_freelist s) s1 ∧
       kmem_freelist s1 = x).
Proof using kend_pos PHYSTOP_aligned.
  split.
  - intros s l a b Hi Hout.
    assert (kmem_inv (set_ram (write8 (ram s) a b) s) l) as Hiw.
    { destruct Hi as [Hc Hnd Hv Hn Ht Hz]. constructor; sproj; try done.
      eapply chain_frame; [done|]. intros p Hp. apply load32_ext.
      intros i Hi. apply write8_ne. specialize (Hout p Hp). lia. }
    destruct (kalloc_many_spec l s Hi) as (s1 & H1 & _).
    destruct (kalloc_many_spec l _ Hiw) as (s2 & H2 & _).
    by exists s1, s2.
  - intros s l x Hi Hne Hx.
    destruct (chain_nonnull _ _ _ (inv_chain _ _ Hi) Hne) as [l' ->].
    pose proof (inv_valid _ _ Hi) as [Hvp _]%Forall_cons.
    set (h := kmem_freelist s) in *.
    set (sw := set_ram (store32 (ram s) h x) s).
    assert (kmem_freelist sw = h) as Hh by reflexivity.
    exists (lock_cycle (pop_page h sw)). split.
    + rewrite <- Hh at 1 2. apply kalloc_pop; rewrite Hh; [done|].
      by eapply (refcount_at_valid s).
    + rewrite lock_cycle_freelist.
      destruct (pop_page_frame h sw) as (_ & _ & _ & -> & _).
      by apply load32_store32.
Qed.

(** ** What the bootstrap path does not detect *)

Lemma chain_through_push m v h pre : ∀ a post l1,
  chain m a (pre ++ v :: post) →
  v mod PGSIZE = 0 → Forall (λ p, p mod PGSIZE = 0 ∧ p ≠ v) pre →
  chain (push_ram m v h) a l1 →
  ∃ l2, l1 = pre ++ l2 ∧ chain (push_ram m v h) v l2.
Proof.
  induction pre as [|p pre IH]; intros a post l1 Hc Hv Hpre Hc'.
  - apply chain_head in Hc as (-> & _ & _). by exists l1.
  - apply chain_head in Hc as (-> & Hp0 & Hc).
    apply Forall_cons in Hpre as [[Hpa Hpv] Hpre].
    inversion Hc' as [|? l1' _ Hc1]; subst; [done|].
    rewrite push_ram_other_page in Hc1 by done.
    destruct (IH _ _ _ Hc Hv Hpre Hc1) as (l2 & -> & Hc2).
    by exists l2.
Qed.

Lemma no_chain_after_repush m h pre post q :
  chain m h (pre ++ q :: post) →
  q mod PGSIZE = 0 → q ≠ 0 → Forall (λ p, p mod PGSIZE = 0 ∧ p ≠ q) pre →
  0 ≤ h < 2 ^ 32 →
  ∀ n l', (length l' ≤ n)%nat → ¬ chain (push_ram m q h) q l'.
Proof.
  intros Hc Hq Hq0 Hpre Hh.
  induction n as [|n IH]; intros l' Hlen Hc';
    inversion Hc' as [|? l1 _ Hc1]; subst; try done.
  { simpl in Hlen. lia. }
  rewrite push_ram_link in Hc1 by done.
  destruct (chain_through_push _ _ _ _ _ _ _ Hc Hq Hpre Hc1) as (l2 & -> & Hc2).
  apply (IH l2); [|done]. simpl in Hlen. rewrite length_app in Hlen. lia.
Qed.

(** X20. While [use_lock] is 0 a double free goes unnoticed. On a
    well-formed allocator in the bootstrap phase, [kfree] of a page that is
    already on the free list (as when two seeding ranges overlap) returns
    normally and counts the page a second time, and from then on the free
    list is cyclic: no walk from its head reaches NULL. *)
Theorem boot_double_free_makes_cycle (s : state) (l : list Z) (q : Z) :
  kmem_inv s l → kmem_use_lock s = 0 → q ∈ l →
  ∃ s', kfree q s = Done () s' ∧
        pmem_num_free_pages s' = pmem_num_free_pages s + 1 ∧
        kmem_freelist s' = q ∧
        ¬ ∃ l', chain (ram s') (kmem_freelist s') l'.
Proof using kend_pos.
  intros Hi Hu Hq.
  pose proof (inv_valid _ _ Hi) as Hvl. rewrite Forall_forall in Hvl.
  pose proof (Hvl q Hq) as Hvq.
  pose proof (inv_nodup _ _ Hi) as Hnd.
  pose proof (free_pages_bound l Hnd (inv_valid _ _ Hi)) as Hb.
  exists (push_page q s). split_and!.
  - apply kfree_seed; [by apply valid_page_accepted|done].
  - unfold push_page; sproj. rewrite (inv_count _ _ Hi). apply s32_id. lia.
  - done.
  - unfold push_page; sproj.
    destruct (list_elem_of_split_l l q Hq) as (pre & post & Hl & Hpre).
    pose proof (inv_chain _ _ Hi) as Hc. rewrite Hl in Hc.
    assert (Forall (λ p, p mod PGSIZE = 0 ∧ p ≠ q) pre) as Hprev.
    { apply Forall_forall. intros p Hp. split.
      - destruct (Hvl p) as (_ & ? & _); [|done].
        rewrite Hl. apply elem_of_app. by left.
      - intros ->. done. }
    assert (0 ≤ kmem_freelist s < 2 ^ 32) as Hh.
    { eapply chain_head_range; [apply (inv_chain _ _ Hi)|apply Hi]. }
    pose proof (valid_page_nonnull q Hvq) as Hq0.
    destruct Hvq as (_ & Hqa & _).
    intros [l' Hc'].
    by eapply (no_chain_after_repush _ _ _ _ _ Hc Hqa Hq0 Hprev Hh (length l') l').
Qed.

(** X21. Once [use_lock] is set, [freerange] can no longer add memory: when
    the first page of the range is an accepted address whose count is 0, as
    every page is right after [kinit2], the call panics with
    "kfree: refcount underflow" at that page, and with it a second
    [kinit2]; free list, counter, table and page memory are as before. *)
Theorem freerange_after_boot_panics
    (fuel : nat) (vstart vend : Z) (s : state) :
  let p := PGROUNDUP (u32 vstart) in
  (0 < fuel)%nat → kmem_use_lock s ≠ 0 →
  kend ≤ p → V2P p < PHYSTOP → p + PGSIZE ≤ vend → p + PGSIZE < 2 ^ 32 →
  refcount_at (pmem_refcount s) (pgidx p) = Some 0 →
  freerange fuel vstart vend s =
    Panic "kfree: refcount underflow" (set_lock true s) ∧
  kinit2 fuel vstart vend s =
    Panic "kfree: refcount underflow" (set_lock true s).
Proof.
  intros p Hf Hu Hk Hp Hend Hmax Hc.
  assert (freerange fuel vstart vend s =
          Panic "kfree: refcount underflow" (set_lock true s)) as Hfr.
  { unfold freerange. fold p. destruct fuel as [|fuel]; [lia|].
    simpl freerange_loop. pose proof (PGROUNDUP_range (u32 vstart)) as Hr.
    fold p in Hr. rewrite u32_id by (unfold PGSIZE in *; lia).
    destruct (Z.leb_spec (p + PGSIZE) vend); [|lia].
    unfold mbind, M_bind. rewrite kfree_underflow; [done| |done..].
    apply kfree_accepts_spec. split_and!; [apply PGROUNDUP_aligned|done..]. }
  split; [done|]. unfold kinit2, mbind, M_bind. by rewrite Hfr.
Qed.

End Kalloc.

(** * Concrete runs on the small machine *)

Lemma demo_kend_pos : 0 < demo_end.
Proof. reflexivity. Qed.

Lemma demo_PHYSTOP_aligned : demo_PHYSTOP mod PGSIZE = 0.
Proof. reflexivity. Qed.

Lemma demo_state_reachable :
  (kinit1 demo_KERNBASE demo_PHYSTOP demo_end 3 0x80001000 0x80003000;;
   kinit2 demo_KERNBASE demo_PHYSTOP demo_end 3 0x80003000 0x80005000;;
   a ← kalloc demo_KERNBASE;
   _ ← kalloc demo_KERNBASE;
   inc_refcount (V2P demo_KERNBASE a)) demo_boot = Done () demo_state.
Proof. reflexivity. Qed.

Lemma demo_valid_page v :
  v ∈ [0x80001000; 0x80002000; 0x80003000; 0x80004000; 0x80005000] →
  valid_page demo_KERNBASE demo_PHYSTOP demo_end v.
Proof.
  intros Hv. repeat (apply elem_of_cons in Hv as [->|Hv]);
    [by vm_compute..|by apply elem_of_nil in Hv].
Qed.

Lemma demo_state_inv :
  kmem_inv demo_KERNBASE demo_PHYSTOP demo_end demo_state demo_free.
Proof.
  constructor.
  - apply (walk_chain 2). by vm_compute.
  - by apply (bool_decide_unpack _).
  - repeat constructor; apply demo_valid_page; by apply (bool_decide_unpack _).
  - reflexivity.
  - reflexivity.
  - intros _ p Hp. repeat (apply elem_of_cons in Hp as [->|Hp]);
      [reflexivity..|by apply elem_of_nil in Hp].
Qed.

(** A misaligned address is rejected; page 0x80003000 passes the check. *)
Lemma kfree_bounds_check_witness :
  kfree demo_KERNBASE demo_PHYSTOP demo_end 0x80001004 demo_state =
    Panic "kfree" demo_state ∧
  ∀ s', kfree demo_KERNBASE demo_PHYSTOP demo_end 0x80003000 demo_state ≠
        Panic "kfree" s'.
Proof.
  split.
  - apply (proj1 (kfree_bounds_check demo_KERNBASE demo_PHYSTOP demo_end
                    0x80001004 demo_state)).
    left. by vm_compute.
  - apply (proj2 (kfree_bounds_check demo_KERNBASE demo_PHYSTOP demo_end
                    0x80003000 demo_state)).
    by vm_compute.
Defined.

(** Freeing the free page 0x80002000 a second time. *)
Lemma kfree_double_free_panics_witness :
  ∃ s', kfree demo_KERNBASE demo_PHYSTOP demo_end 0x80002000 demo_state =
          Panic "kfree: refcount underflow" s' ∧
        kmem_freelist s' = kmem_freelist demo_state ∧
        pmem_num_free_pages s' = pmem_num_free_pages demo_state ∧
        pmem_refcount s' = pmem_refcount demo_state ∧
        ram s' = ram demo_state ∧
        kmem_use_lock s' = kmem_use_lock demo_state.
Proof.
  apply (kfree_double_free_panics demo_KERNBASE demo_PHYSTOP demo_end
           0x80002000 demo_state); by vm_compute.
Defined.

(** The only owner of page 0x80003000 frees it. *)
Lemma kfree_last_owner_witness :
  ∃ s', kfree demo_KERNBASE demo_PHYSTOP demo_end 0x80003000 demo_state =
          Done () s' ∧
        kmem_freelist s' = 0x80003000 ∧
        pmem_num_free_pages s' = 3 ∧
        load32 (ram s') 0x80003000 = 0x80002000 ∧
        ram s' 0x80003004 = 1 ∧ ram s' 0x80003fff = 1.
Proof.
  destruct (kfree_last_owner demo_KERNBASE demo_PHYSTOP demo_end
              0x80003000 demo_state)
    as (s' & Hk & _ & _ & Hpoison & _ & Hhead & Hlink & _ & Hnum & _);
    [by vm_compute..|].
  exists s'. split_and!; [done|done| | | |].
  - apply Hnum. by vm_compute.
  - apply Hlink. by vm_compute.
  - apply Hpoison. by vm_compute.
  - apply Hpoison. by vm_compute.
Defined.

(** One of the two owners of page 0x80004000 frees it. *)
Lemma kfree_still_shared_witness :
  ∃ s', kfree demo_KERNBASE demo_PHYSTOP demo_end 0x80004000 demo_state =
          Done () s' ∧
        refcount_at (pmem_refcount s')
          (pgidx demo_KERNBASE 0x80004000) = Some (2 - 1) ∧
        ram s' = ram demo_state ∧
        kmem_freelist s' = kmem_freelist demo_state ∧
        pmem_num_free_pages s' = pmem_num_free_pages demo_state.
Proof.
  destruct (kfree_still_shared demo_KERNBASE demo_PHYSTOP demo_end
              0x80004000 2 demo_state)
    as (s' & Hk & Hc & Hram & Hfl & Hnum & _); [by vm_compute..|].
  by exists s'.
Defined.

(** Allocating from the two-page free list. *)
Lemma kalloc_success_witness :
  ∃ s' l', demo_free = 0x80002000 :: l' ∧
           kalloc demo_KERNBASE demo_state = Done 0x80002000 s' ∧
           get_refcount (V2P demo_KERNBASE 0x80002000) s' = Done 1 s' ∧
           pmem_num_free_pages s' = 1 ∧
           0x80002000 mod PGSIZE = 0.
Proof.
  destruct (kalloc_success demo_KERNBASE demo_PHYSTOP demo_end
              demo_kend_pos demo_PHYSTOP_aligned demo_state demo_free
              demo_state_inv)
    as (s' & l' & Hl & Hk & _ & Hnum & _ & Hget & Hal & _); [by vm_compute|].
  by exists s', l'.
Defined.

(** The second bootstrap phase over the upper four pages. *)
Lemma kinit2_order_witness :
  ∃ s1 s2,
    freerange demo_KERNBASE demo_PHYSTOP demo_end 5 0x80004000 0x80008000
      demo_boot = Done () s1 ∧
    kmem_use_lock s1 = 0 ∧ pmem_refcount s1 = pmem_refcount demo_boot ∧
    kinit2 demo_KERNBASE demo_PHYSTOP demo_end 5 0x80004000 0x80008000
      demo_boot = Done () s2 ∧
    kmem_use_lock s2 = 1 ∧
    kmem_freelist s2 = kmem_freelist s1 ∧
    pmem_num_free_pages s2 = pmem_num_free_pages s1.
Proof.
  assert (seed_range_ok demo_KERNBASE demo_PHYSTOP demo_end
            0x80004000 0x80008000 4) as Hok by (by vm_compute).
  assert (4 < 5)%nat as Hfuel by lia.
  assert (kmem_use_lock demo_boot = 0) as Hu by reflexivity.
  destruct (kinit2_order demo_KERNBASE demo_PHYSTOP demo_end
              demo_kend_pos demo_PHYSTOP_aligned) as [Hany Hrange].
  pose proof (Hrange 5%nat 0x80004000 0x80008000 4%nat demo_boot Hok Hfuel Hu)
    as H.
  pose proof (Hany 5%nat 0x80004000 0x80008000 demo_boot Hu) as H'.
  cbv zeta in H.
  destruct H as (Hfr & _ & Hk & Hu2 & _ & Hfl & Hnum & _).
  rewrite Hfr in H'. destruct H' as (Hu1 & Hrc & _).
  do 2 eexists.
  split; [exact Hfr|]. split; [exact Hu1|]. split; [exact Hrc|].
  split; [exact Hk|]. split; [exact Hu2|]. split; [exact Hfl|exact Hnum].
Defined.

(** Emptying the two-page pool. *)
Lemma kalloc_exhaustion_witness :
  ∃ s1, kalloc_many demo_KERNBASE (length demo_free) demo_state =
          Done demo_free s1 ∧
        (∃ s2, kalloc demo_KERNBASE s1 = Done 0 s2) ∧
        ∃ s3 s4, kfree demo_KERNBASE demo_PHYSTOP demo_end 0x80001000 s1 =
                   Done () s3 ∧
                 kalloc demo_KERNBASE s3 = Done 0x80001000 s4.
Proof.
  destruct (proj2 (kalloc_exhaustion demo_KERNBASE demo_PHYSTOP demo_end
                     demo_kend_pos demo_PHYSTOP_aligned)
              demo_state demo_free demo_state_inv)
    as (s1 & Hmany & _ & (s2 & Hnull & _) & Hagain).
  destruct (Hagain 0x80001000) as (s3 & s4 & Hf & Ha & _).
  { by apply (bool_decide_unpack _). }
  exists s1. eauto 10.
Defined.

(** Stack order on the two-page pool. *)
Lemma freelist_lifo_witness :
  (∃ s1, kalloc_many demo_KERNBASE (length demo_free) demo_state =
           Done demo_free s1 ∧ NoDup demo_free ∧
         ∃ s2 s3, kfree demo_KERNBASE demo_PHYSTOP demo_end 0x80001000 s1 =
                    Done () s2 ∧
                  kalloc demo_KERNBASE s2 = Done 0x80001000 s3) ∧
  (∃ s1 s2 s3, kalloc demo_KERNBASE demo_state = Done 0x80002000 s1 ∧
               kfree demo_KERNBASE demo_PHYSTOP demo_end 0x80002000 s1 =
                 Done () s2 ∧
               kalloc demo_KERNBASE s2 = Done 0x80002000 s3).
Proof.
  destruct (freelist_lifo demo_KERNBASE demo_PHYSTOP demo_end
              demo_kend_pos demo_PHYSTOP_aligned demo_state demo_free
              demo_state_inv)
    as [(s1 & Hmany & Hnd & Hlast) Hstep].
  split.
  - exists s1. split_and!; [done..|].
    destruct (Hlast [0x80002000] 0x80001000) as (s2 & s3 & ? & ?); [done|].
    eauto.
  - destruct (Hstep 0x80002000 [0x80001000]) as (s1' & s2 & s3 & ? & ? & ? & _);
      [done|].
    eauto 10.
Defined.

(** Underflow of the count of page 0x80005000, then [kfree] of that page. *)
Lemma refcount_wraps_witness :
  ∃ s1 s2,
    dec_refcount (V2P demo_KERNBASE 0x80005000) demo_state =
      Done () s1 ∧
    get_refcount (V2P demo_KERNBASE 0x80005000) s1 = Done (2 ^ 32 - 1) s1 ∧
    kfree demo_KERNBASE demo_PHYSTOP demo_end 0x80005000 s1 = Done () s2 ∧
    get_refcount (V2P demo_KERNBASE 0x80005000) s2 = Done (2 ^ 32 - 2) s2 ∧
    kmem_freelist s2 = kmem_freelist demo_state.
Proof.
  destruct (proj2 (proj2 (proj2 (refcount_wraps demo_KERNBASE demo_PHYSTOP
                                   demo_end)))
              0x80005000 demo_state)
    as (s1 & s2 & Hd & Hg1 & Hf & Hg2 & Hfl & _); [by vm_compute..|].
  eauto 10.
Defined.

(** The two bootstrap phases on the small machine, and the counter on the
    two-page state. *)
Lemma counter_consistency_witness :
  (∃ s l, (kinit1 demo_KERNBASE demo_PHYSTOP demo_end 5 0x80001000 0x80004000;;
           kinit2 demo_KERNBASE demo_PHYSTOP demo_end 5 0x80004000 0x80008000)
            demo_boot = Done () s ∧
          kmem_use_lock s = 1 ∧
          kmem_inv demo_KERNBASE demo_PHYSTOP demo_end s l ∧
          length l = (4 + 3)%nat) ∧
  counter_consistent demo_state ∧
  freemem demo_state = Done (Z.of_nat (length demo_free)) demo_state.
Proof.
  destruct (counter_consistency demo_KERNBASE demo_PHYSTOP demo_end
              demo_kend_pos demo_PHYSTOP_aligned) as [Hboot Hstep].
  split.
  - apply (Hboot 5%nat 0x80001000 0x80004000 3%nat 0x80004000 0x80008000 4%nat
             demo_boot); [by vm_compute|by vm_compute|by vm_compute|lia|lia|
                          reflexivity|reflexivity|reflexivity].
  - destruct (Hstep demo_state demo_free demo_state_inv) as (Hcc & Hfm & _).
    split; [exact Hcc|exact Hfm].
Defined.

(** C1 as stated fails. The well-formed two-page state is reached from boot
    by the two bootstrap phases, two allocations and one [inc_refcount] on
    an allocated page. There [inc_refcount] on the free page 0x80002000
    keeps counter and free list in agreement, and the following [kfree] of
    that page returns normally with the counter at 3 while the page's link
    points to the page itself: from then on no walk of the free list
    reaches NULL, and a single page is reachable from the head. *)
Lemma counter_consistency_counterexample :
  (kinit1 demo_KERNBASE demo_PHYSTOP demo_end 3 0x80001000 0x80003000;;
   kinit2 demo_KERNBASE demo_PHYSTOP demo_end 3 0x80003000 0x80005000;;
   a ← kalloc demo_KERNBASE;
   _ ← kalloc demo_KERNBASE;
   inc_refcount (V2P demo_KERNBASE a)) demo_boot = Done () demo_state ∧
  counter_consistent demo_state ∧
  inc_refcount (V2P demo_KERNBASE 0x80002000) demo_state = Done () demo_bumped ∧
  counter_consistent demo_bumped ∧
  ∃ s2, kfree demo_KERNBASE demo_PHYSTOP demo_end 0x80002000 demo_bumped =
          Done () s2 ∧
        freemem s2 = Done 3 s2 ∧
        load32 (ram s2) (kmem_freelist s2) = kmem_freelist s2 ∧
        ¬ counter_consistent s2.
Proof.
  assert (chain demo_ram 0x80002000 demo_free) as Hchain
    by (apply (walk_chain 2); by vm_compute).
  split; [exact demo_state_reachable|].
  split; [by exists demo_free|].
  split; [by rewrite (inc_refcount_eq _ _ 0)|].
  split; [by exists demo_free|].
  exists (set_lock false
            (push_page 0x80002000
               (drop_ref demo_KERNBASE 0x80002000 1 demo_bumped))).
  assert (load32 (push_ram demo_ram 0x80002000 0x80002000) 0x80002000 =
          0x80002000) as Hloop by (apply push_ram_link; lia).
  split_and!.
  - apply kfree_last; by vm_compute.
  - reflexivity.
  - exact Hloop.
  - intros (l & Hch & _). by eapply chain_self_loop, Hch.
Qed.

(** * Further concrete runs *)

(** Seeding the first page at boot. *)
Lemma kfree_boot_path_witness :
  ∃ s', kfree demo_KERNBASE demo_PHYSTOP demo_end 0x80001000 demo_boot =
          Done () s' ∧
        pmem_refcount s' = pmem_refcount demo_boot ∧
        kmem_freelist s' = 0x80001000 ∧
        load32 (ram s') 0x80001000 = 0 ∧
        ram s' 0x80001004 = 1.
Proof.
  destruct (kfree_boot_path demo_KERNBASE demo_PHYSTOP demo_end
              0x80001000 demo_boot)
    as (s' & Hk & Hrc & _ & _ & Hfl & Hlink & Hpoison & _);
    [by vm_compute..|].
  exists s'. split; [exact Hk|]. split; [exact Hrc|]. split; [exact Hfl|].
  split; [apply Hlink|apply Hpoison]; by vm_compute.
Defined.

Lemma kfree_memory_safe_witness :
  (∃ s', kfree demo_KERNBASE demo_PHYSTOP demo_end 0x80003000 demo_state =
           Done () s') ∨
  (∃ msg s', kfree demo_KERNBASE demo_PHYSTOP demo_end 0x80003000 demo_state =
               Panic msg s').
Proof.
  apply (kfree_memory_safe demo_KERNBASE demo_PHYSTOP demo_end
           demo_PHYSTOP_aligned 0x80003000 demo_state).
  reflexivity.
Defined.

(** The still-shared page 0x80004000 is freed once. *)
Lemma kfree_frame_witness :
  ∃ s', kfree demo_KERNBASE demo_PHYSTOP demo_end 0x80004000 demo_state =
          Done () s' ∧
        kmem_use_lock s' = 1 ∧ ram s' 0x80002000 = ram demo_state 0x80002000.
Proof.
  pose proof (kfree_frame demo_KERNBASE demo_PHYSTOP demo_end
                0x80004000 demo_state) as H.
  assert (kfree demo_KERNBASE demo_PHYSTOP demo_end 0x80004000 demo_state =
          Done () (set_lock false (drop_ref demo_KERNBASE 0x80004000 2 demo_state)))
    as Hk by (apply kfree_shared; by vm_compute).
  rewrite Hk in H. destruct H as (Hu & Hram & _).
  eexists. split; [exact Hk|]. split; [exact Hu|]. apply Hram. unfold PGSIZE. lia.
Defined.

Lemma lock_discipline_witness :
  ∃ s1 s2 s3,
    kfree demo_KERNBASE demo_PHYSTOP demo_end 0x80004000 demo_state =
      Done () s1 ∧ kmem_lock s1 = false ∧
    kalloc demo_KERNBASE demo_state = Done 0x80002000 s2 ∧
    kmem_lock s2 = false ∧
    kfree demo_KERNBASE demo_PHYSTOP demo_end 0x80002000 demo_state =
      Panic "kfree: refcount underflow" s3 ∧ kmem_lock s3 = true.
Proof.
  destruct (lock_discipline demo_KERNBASE demo_PHYSTOP demo_end demo_state)
    as (Hfree & Halloc & Hpanic).
  assert (kfree demo_KERNBASE demo_PHYSTOP demo_end 0x80004000 demo_state =
          Done () (set_lock false (drop_ref demo_KERNBASE 0x80004000 2 demo_state)))
    as Hk1 by (apply kfree_shared; by vm_compute).
  pose proof (kalloc_cons demo_KERNBASE demo_PHYSTOP demo_end
                demo_PHYSTOP_aligned demo_state _ _ demo_state_inv) as Hk2.
  assert (kfree demo_KERNBASE demo_PHYSTOP demo_end 0x80002000 demo_state =
          Panic "kfree: refcount underflow" (set_lock true demo_state))
    as Hk3 by (apply kfree_underflow; by vm_compute).
  do 3 eexists.
  split; [exact Hk1|]. split; [exact (Hfree _ _ Hk1)|].
  split; [exact Hk2|]. split; [exact (Halloc _ _ Hk2)|].
  split; [exact Hk3|exact (Hpanic _ _ Hk3)].
Defined.

Lemma kalloc_frame_witness :
  ∃ s', kalloc demo_KERNBASE demo_state = Done 0x80002000 s' ∧
        ram s' = ram demo_state ∧
        kmem_freelist s' = load32 (ram demo_state) 0x80002000 ∧
        refcount_at (pmem_refcount s') (pgidx demo_KERNBASE 0x80002000) =
          Some 1.
Proof.
  pose proof (kalloc_cons demo_KERNBASE demo_PHYSTOP demo_end
                demo_PHYSTOP_aligned demo_state _ _ demo_state_inv) as Hk.
  destruct (kalloc_frame demo_KERNBASE demo_state _ _ Hk)
    as (_ & Hram & _ & _ & _ & Hsucc).
  destruct Hsucc as (Hone & Hfl & _); [by vm_compute|].
  eexists. split; [exact Hk|]. split; [exact Hram|]. split; [exact Hfl|exact Hone].
Defined.

(** The only owner of 0x80003000 frees it and allocates again. *)
Lemma kalloc_returns_poisoned_witness :
  ∃ s1 s2,
    kfree demo_KERNBASE demo_PHYSTOP demo_end 0x80003000 demo_state =
      Done () s1 ∧
    kalloc demo_KERNBASE s1 = Done 0x80003000 s2 ∧
    ram s2 0x80003004 = 1 ∧ ram s2 0x80003fff = 1 ∧
    load32 (ram s2) 0x80003000 = 0x80002000.
Proof.
  destruct (kalloc_returns_poisoned demo_KERNBASE demo_PHYSTOP demo_end
              demo_kend_pos 0x80003000 demo_state)
    as (s1 & s2 & Hf & Hk & Hpoison & Hlink);
    [by vm_compute|by vm_compute|by vm_compute|by eexists|by right|].
  exists s1, s2. split; [exact Hf|]. split; [exact Hk|].
  split; [apply Hpoison; by vm_compute|].
  split; [apply Hpoison; by vm_compute|].
  apply Hlink. by vm_compute.
Defined.

Lemma kalloc_kfree_roundtrip_witness :
  ∃ s1 s2,
    kalloc demo_KERNBASE demo_state = Done 0x80002000 s1 ∧
    kfree demo_KERNBASE demo_PHYSTOP demo_end 0x80002000 s1 = Done () s2 ∧
    kmem_freelist s2 = kmem_freelist demo_state ∧
    pmem_num_free_pages s2 = pmem_num_free_pages demo_state ∧
    pmem_refcount s2 = pmem_refcount demo_state.
Proof.
  destruct (kalloc_kfree_roundtrip demo_KERNBASE demo_PHYSTOP demo_end
              demo_kend_pos demo_PHYSTOP_aligned demo_state
              0x80002000 [0x80001000] demo_state_inv)
    as (s1 & s2 & Hk & Hf & Hfl & Hnum & Hrc & _); [by vm_compute|].
  exists s1, s2. split; [exact Hk|]. split; [exact Hf|].
  split; [exact Hfl|]. split; [exact Hnum|exact Hrc].
Defined.

(** The two owners of 0x80004000 free it one after the other; a third
    [kfree] panics. *)
Lemma shared_page_last_free_witness :
  ∃ s1 s2 s3,
    kfree_many demo_KERNBASE demo_PHYSTOP demo_end 1 0x80004000 demo_state =
      Done () s1 ∧
    kmem_freelist s1 = kmem_freelist demo_state ∧
    kfree demo_KERNBASE demo_PHYSTOP demo_end 0x80004000 s1 = Done () s2 ∧
    kmem_freelist s2 = 0x80004000 ∧
    kfree demo_KERNBASE demo_PHYSTOP demo_end 0x80004000 s2 =
      Panic "kfree: refcount underflow" s3.
Proof.
  destruct (shared_page_last_free demo_KERNBASE demo_PHYSTOP demo_end
              demo_kend_pos demo_PHYSTOP_aligned 1 demo_state demo_free
              0x80004000 demo_state_inv)
    as (s1 & s2 & s3 & Hm & _ & _ & Hfl & _ & _ & Hf & _ & Hh & _ & _ & Hp);
    [apply demo_valid_page; by apply (bool_decide_unpack _)
    |by vm_compute|reflexivity|by vm_compute|].
  exists s1, s2, s3. split; [exact Hm|]. split; [exact Hfl|].
  split; [exact Hf|]. split; [exact Hh|exact Hp].
Defined.

(** The count of the shared page, and the wrap at the top of [uint]. *)
Lemma inc_dec_roundtrip_witness :
  (inc_refcount 0x4000;; dec_refcount 0x4000) demo_state = Done () demo_state ∧
  (dec_refcount 0x4000;; inc_refcount 0x4000) demo_state = Done () demo_state.
Proof.
  apply (inc_dec_roundtrip 0x4000 2 demo_state); [reflexivity|lia].
Defined.

Lemma accessor_bounds_witness :
  (∃ c si sd, get_refcount 0x4abc demo_state = Done c demo_state ∧
              inc_refcount 0x4abc demo_state = Done () si ∧
              dec_refcount 0x4abc demo_state = Done () sd) ∧
  get_refcount 0x8000 demo_state = Undefined ∧
  inc_refcount 0x8000 demo_state = Undefined ∧
  dec_refcount 0x8000 demo_state = Undefined.
Proof.
  split.
  - apply (proj1 (accessor_bounds demo_PHYSTOP demo_PHYSTOP_aligned
                    0x4abc demo_state eq_refl)).
    by vm_compute.
  - apply (proj2 (accessor_bounds demo_PHYSTOP demo_PHYSTOP_aligned
                    0x8000 demo_state eq_refl)).
    by vm_compute.
Defined.

Lemma freerange_short_range_witness :
  freerange demo_KERNBASE demo_PHYSTOP demo_end 1 0x80001010 0x80001800
    demo_state = Done () demo_state ∧
  freerange demo_KERNBASE demo_PHYSTOP demo_end 1 0xfffff001 0xffffffff
    demo_state = Panic "kfree" demo_state.
Proof.
  split.
  - apply (proj1 (freerange_short_range demo_KERNBASE demo_PHYSTOP demo_end
                    demo_kend_pos 1 0x80001010 0x80001800 demo_state
                    ltac:(lia))); [lia|by vm_compute|by vm_compute].
  - apply (proj2 (freerange_short_range demo_KERNBASE demo_PHYSTOP demo_end
                    demo_kend_pos 1 0xfffff001 0xffffffff demo_state
                    ltac:(lia))); [by vm_compute|by vm_compute].
Defined.


(** A range that runs past the physical ceiling. *)
Lemma freerange_stops_at_rejected_page_witness :
  ∃ s', freerange demo_KERNBASE demo_PHYSTOP demo_end 5 0x80006000 0x8000a000
          demo_boot = Panic "kfree" s' ∧
        kinit2 demo_KERNBASE demo_PHYSTOP demo_end 5 0x80006000 0x8000a000
          demo_boot = Panic "kfree" s' ∧
        kmem_use_lock s' = 0.
Proof.
  pose proof (freerange_stops_at_rejected_page
                demo_KERNBASE demo_PHYSTOP demo_end
                5 0x80006000 0x8000a000 2 demo_boot) as H.
  cbv zeta in H.
  destruct H as (Hfr & Hk & Hu & _).
  - lia.
  - reflexivity.
  - intros v Hv. repeat (apply elem_of_cons in Hv as [->|Hv]);
      [reflexivity..|by apply elem_of_nil in Hv].
  - reflexivity.
  - by vm_compute.
  - by vm_compute.
  - eexists. split; [exact Hfr|]. split; [exact Hk|exact Hu].
Defined.

Lemma freerange_terminates_witness :
  ∃ o, o ≠ OutOfFuel ∧
       ∀ fuel,
         (Z.to_nat ((2 ^ 32 - PGROUNDUP (u32 0xffffe000)) / PGSIZE) < fuel)%nat →
         freerange demo_KERNBASE demo_PHYSTOP demo_end fuel 0xffffe000 0xffffffff
           demo_state = o.
Proof.
  exact (freerange_terminates demo_KERNBASE demo_PHYSTOP demo_end
           demo_kend_pos 0xffffe000 0xffffffff demo_state).
Defined.


(** Boot as xv6 does it: first phase, an allocation, second phase; then the
    early page is freed. *)
Lemma kinit2_forgets_early_allocations_witness :
  ∃ s s1 s2 s3,
    kinit1 demo_KERNBASE demo_PHYSTOP demo_end 4 0x80001000 0x80004000
      demo_boot = Done () s ∧
    kalloc demo_KERNBASE s = Done 0x80003000 s1 ∧
    kinit2 demo_KERNBASE demo_PHYSTOP demo_end 5 0x80004000 0x80008000 s1 =
      Done () s2 ∧
    get_refcount (V2P demo_KERNBASE 0x80003000) s2 = Done 0 s2 ∧
    kfree demo_KERNBASE demo_PHYSTOP demo_end 0x80003000 s2 =
      Panic "kfree: refcount underflow" s3.
Proof.
  assert (seed_range_ok demo_KERNBASE demo_PHYSTOP demo_end
            0x80001000 0x80004000 3) as Hok1 by (by vm_compute).
  assert (seed_range_ok demo_KERNBASE demo_PHYSTOP demo_end
            0x80004000 0x80008000 4) as Hok2 by (by vm_compute).
  destruct (kinit1_inv demo_KERNBASE demo_PHYSTOP demo_end demo_kend_pos
              4 0x80001000 0x80004000 3 demo_boot Hok1)
    as (s & Hk1 & Hu & Hinv); [lia|reflexivity..|].
  change (reverse (range_pages (PGROUNDUP (u32 0x80001000)) 3))
    with [0x80003000; 0x80002000; 0x80001000] in Hinv.
  destruct (kinit2_forgets_early_allocations
              demo_KERNBASE demo_PHYSTOP demo_end
              demo_kend_pos demo_PHYSTOP_aligned
              5 0x80004000 0x80008000 4 s 0x80003000
              [0x80002000; 0x80001000] Hinv Hu Hok2)
    as (s1 & s2 & s3 & l2 & Ha & _ & Hk2 & _ & _ & Hg & Hf).
  - lia.
  - intros q Hq. repeat (apply elem_of_cons in Hq as [->|Hq]);
      [by vm_compute..|by apply elem_of_nil in Hq].
  - exists s, s1, s2, s3. split; [exact Hk1|]. split; [exact Ha|].
    split; [exact Hk2|]. split; [exact Hg|exact Hf].
Defined.

(** An allocation, its release, and a second release of the same page. *)
Lemma kalloc_kfree_runs_safe_witness :
  (∃ s' l',
     do_calls demo_KERNBASE demo_PHYSTOP demo_end
       [Kalloc; Kfree 0x80002000; Kfree 0x80002000] demo_state = Done () s' ∧
     kmem_inv demo_KERNBASE demo_PHYSTOP demo_end s' l' ∧
     freemem s' = Done (Z.of_nat (length l')) s') ∨
  (∃ msg s' l',
     do_calls demo_KERNBASE demo_PHYSTOP demo_end
       [Kalloc; Kfree 0x80002000; Kfree 0x80002000] demo_state =
       Panic msg s' ∧
     kmem_inv demo_KERNBASE demo_PHYSTOP demo_end s' l').
Proof.
  apply (kalloc_kfree_runs_safe demo_KERNBASE demo_PHYSTOP demo_end
           demo_kend_pos demo_PHYSTOP_aligned
           [Kalloc; Kfree 0x80002000; Kfree 0x80002000]
           demo_state demo_free demo_state_inv).
  - by vm_compute.
  - repeat constructor; simpl; lia.
Defined.

(** After the misuse that breaks the counter, [kalloc] still returns a
    checked page. *)
Lemma kalloc_returns_checked_pages_witness :
  ∃ s1 s2,
    do_calls demo_KERNBASE demo_PHYSTOP demo_end
      [IncRefcount 0x2000; Kfree 0x80002000] demo_state = Done () s1 ∧
    kalloc demo_KERNBASE s1 = Done 0x80002000 s2 ∧
    (0x80002000 = 0 ∨
     0x80002000 mod PGSIZE = 0 ∧ demo_end ≤ 0x80002000 ∧
     V2P demo_KERNBASE 0x80002000 < demo_PHYSTOP).
Proof.
  set (s1 := set_lock false
               (push_page 0x80002000
                  (drop_ref demo_KERNBASE 0x80002000 1 demo_bumped))).
  assert (do_calls demo_KERNBASE demo_PHYSTOP demo_end
            [IncRefcount 0x2000; Kfree 0x80002000] demo_state = Done () s1)
    as Hrun.
  { rewrite (do_calls_cons_done _ _ _ _ _ demo_state demo_bumped)
      by (simpl do_call; by rewrite (inc_refcount_eq _ _ 0)).
    rewrite (do_calls_cons_done _ _ _ _ _ demo_bumped s1); [reflexivity|].
    simpl do_call. apply kfree_last; by vm_compute. }
  destruct (kalloc_after_push demo_KERNBASE 0x80002000
              (drop_ref demo_KERNBASE 0x80002000 1 demo_bumped) false)
    as (Hk & _); [lia|by eexists|].
  exists s1. eexists. split; [exact Hrun|]. split; [exact Hk|].
  eapply (kalloc_returns_checked_pages demo_KERNBASE demo_PHYSTOP demo_end
            [IncRefcount 0x2000; Kfree 0x80002000]
            demo_state demo_free s1 0x80002000 _ demo_state_inv);
    [|exact Hrun|exact Hk].
  repeat constructor; simpl; lia.
Defined.

(** A client writes into its page 0x80003000; then a stray write over the
    link of the free page 0x80002000. *)
Lemma kalloc_reads_only_next_links_witness :
  (∃ s1 s2,
     kalloc_many demo_KERNBASE (length demo_free) demo_state =
       Done demo_free s1 ∧
     kalloc_many demo_KERNBASE (length demo_free)
       (set_ram (write8 (ram demo_state) 0x80003010 7) demo_state) =
       Done demo_free s2) ∧
  (∃ s1,
     kalloc demo_KERNBASE
       (set_ram (store32 (ram demo_state) (kmem_freelist demo_state) 0x1234)
          demo_state) = Done (kmem_freelist demo_state) s1 ∧
     kmem_freelist s1 = 0x1234).
Proof.
  destruct (kalloc_reads_only_next_links demo_KERNBASE demo_PHYSTOP demo_end
              demo_kend_pos demo_PHYSTOP_aligned) as [Hframe Hlink].
  split.
  - apply (Hframe demo_state demo_free 0x80003010 7 demo_state_inv).
    intros p Hp. repeat (apply elem_of_cons in Hp as [->|Hp]);
      [lia..|by apply elem_of_nil in Hp].
  - apply (Hlink demo_state demo_free 0x1234 demo_state_inv);
      [by vm_compute|lia].
Defined.

(** Page 0x80001000 seeded twice during bootstrap. *)
Lemma boot_double_free_makes_cycle_witness :
  ∃ s s', kinit1 demo_KERNBASE demo_PHYSTOP demo_end 4 0x80001000 0x80004000
            demo_boot = Done () s ∧
          kfree demo_KERNBASE demo_PHYSTOP demo_end 0x80001000 s = Done () s' ∧
          pmem_num_free_pages s' = pmem_num_free_pages s + 1 ∧
          ¬ ∃ l', chain (ram s') (kmem_freelist s') l'.
Proof.
  assert (seed_range_ok demo_KERNBASE demo_PHYSTOP demo_end
            0x80001000 0x80004000 3) as Hok by (by vm_compute).
  destruct (kinit1_inv demo_KERNBASE demo_PHYSTOP demo_end demo_kend_pos
              4 0x80001000 0x80004000 3 demo_boot Hok)
    as (s & Hk1 & Hu & Hinv); [lia|reflexivity..|].
  change (reverse (range_pages (PGROUNDUP (u32 0x80001000)) 3))
    with [0x80003000; 0x80002000; 0x80001000] in Hinv.
  destruct (boot_double_free_makes_cycle demo_KERNBASE demo_PHYSTOP demo_end
              demo_kend_pos s _ 0x80001000 Hinv Hu)
    as (s' & Hf & Hn & _ & Hcyc).
  { by apply (bool_decide_unpack _). }
  exists s, s'. split; [exact Hk1|]. split; [exact Hf|].
  split; [exact Hn|exact Hcyc].
Defined.

(** Seeding the free page 0x80001000 again after boot. *)
Lemma freerange_after_boot_panics_witness :
  freerange demo_KERNBASE demo_PHYSTOP demo_end 3 0x80001000 0x80003000
    demo_state = Panic "kfree: refcount underflow" (set_lock true demo_state) ∧
  kinit2 demo_KERNBASE demo_PHYSTOP demo_end 3 0x80001000 0x80003000
    demo_state = Panic "kfree: refcount underflow" (set_lock true demo_state).
Proof.
  apply (freerange_after_boot_panics demo_KERNBASE demo_PHYSTOP demo_end
           3 0x80001000 0x80003000 demo_state);
    [lia|by vm_compute..].
Defined.

(** * The bootstrap phase and the reference counts *)

Lemma demo_early_alloc :
  ∃ s1,
    (kinit1 demo_KERNBASE demo_PHYSTOP demo_end 4 0x80001000 0x80004000;;
     kalloc demo_KERNBASE) demo_boot = Done 0x80003000 s1 ∧
    kmem_use_lock s1 = 0 ∧
    kmem_inv demo_KERNBASE demo_PHYSTOP demo_end s1 [0x80002000; 0x80001000] ∧
    refcount_at (pmem_refcount s1) (pgidx demo_KERNBASE 0x80003000) = Some 1.
Proof.
  assert (seed_range_ok demo_KERNBASE demo_PHYSTOP demo_end
            0x80001000 0x80004000 3) as Hok by (by vm_compute).
  destruct (kinit1_inv demo_KERNBASE demo_PHYSTOP demo_end demo_kend_pos
              4 0x80001000 0x80004000 3 demo_boot Hok)
    as (s & Hk1 & Hu & Hinv); [lia|reflexivity..|].
  change (reverse (range_pages (PGROUNDUP (u32 0x80001000)) 3))
    with [0x80003000; 0x80002000; 0x80001000] in Hinv.
  exists (lock_cycle (pop_page demo_KERNBASE 0x80003000 s)). split_and!.
  - unfold mbind, M_bind. rewrite Hk1.
    by apply (kalloc_cons demo_KERNBASE demo_PHYSTOP demo_end
                demo_PHYSTOP_aligned s _ _ Hinv).
  - by rewrite lock_cycle_use_lock.
  - by apply kmem_inv_lock_cycle,
      (kmem_inv_pop demo_KERNBASE demo_PHYSTOP demo_end demo_PHYSTOP_aligned).
  - rewrite lock_cycle_refcount.
    by apply (pop_page_refcount demo_KERNBASE demo_PHYSTOP demo_end
                demo_PHYSTOP_aligned _ _ _ Hinv).
Qed.

(** C3 as stated fails while [use_lock] is 0. After the first bootstrap
    phase and one [kalloc], page 0x80003000 has count exactly 1; [kfree] of
    it takes the bootstrap path, pushes the page and returns with the count
    still 1, not 0. *)
Lemma kfree_last_owner_counterexample :
  ∃ s1 s2,
    (kinit1 demo_KERNBASE demo_PHYSTOP demo_end 4 0x80001000 0x80004000;;
     kalloc demo_KERNBASE) demo_boot = Done 0x80003000 s1 ∧
    kmem_use_lock s1 = 0 ∧
    get_refcount (V2P demo_KERNBASE 0x80003000) s1 = Done 1 s1 ∧
    kfree demo_KERNBASE demo_PHYSTOP demo_end 0x80003000 s1 = Done () s2 ∧
    kmem_freelist s2 = 0x80003000 ∧
    get_refcount (V2P demo_KERNBASE 0x80003000) s2 = Done 1 s2.
Proof.
  destruct demo_early_alloc as (s1 & Hrun & Hu & _ & Hone).
  exists s1, (push_page 0x80003000 s1). split_and!.
  - exact Hrun.
  - exact Hu.
  - by rewrite get_refcount_V2P, Hone.
  - apply kfree_seed; [reflexivity|exact Hu].
  - reflexivity.
  - rewrite get_refcount_V2P.
    destruct (push_page_frame 0x80003000 s1) as (_ & _ & -> & _).
    by rewrite Hone.
Qed.

(** C4 as stated fails while [use_lock] is 0. After the first bootstrap
    phase, one [kalloc] and one [inc_refcount], page 0x80003000 has count 2;
    [kfree] of it takes the bootstrap path: the page becomes the head of the
    free list, the counter goes from 2 to 3, and the count is still 2. *)
Lemma kfree_still_shared_counterexample :
  ∃ s1 s2,
    (kinit1 demo_KERNBASE demo_PHYSTOP demo_end 4 0x80001000 0x80004000;;
     p ← kalloc demo_KERNBASE;
     inc_refcount (V2P demo_KERNBASE p)) demo_boot = Done () s1 ∧
    kmem_use_lock s1 = 0 ∧
    get_refcount (V2P demo_KERNBASE 0x80003000) s1 = Done 2 s1 ∧
    kmem_freelist s1 = 0x80002000 ∧ pmem_num_free_pages s1 = 2 ∧
    kfree demo_KERNBASE demo_PHYSTOP demo_end 0x80003000 s1 = Done () s2 ∧
    get_refcount (V2P demo_KERNBASE 0x80003000) s2 = Done 2 s2 ∧
    kmem_freelist s2 = 0x80003000 ∧ pmem_num_free_pages s2 = 3.
Proof.
  destruct demo_early_alloc as (s0 & Hrun & Hu & Hinv & Hone).
  set (s1 := set_refcount
               (<[Z.to_nat (pgidx demo_KERNBASE 0x80003000) := 2]>
                  (pmem_refcount s0)) s0).
  assert (refcount_at (pmem_refcount s0)
            (u32 (V2P demo_KERNBASE 0x80003000) ≫ PGSHIFT) = Some 1) as Hone'
    by exact Hone.
  assert (refcount_at (pmem_refcount s1) (pgidx demo_KERNBASE 0x80003000) =
          Some 2) as Htwo.
  { unfold s1; cbn [pmem_refcount set_refcount].
    apply refcount_at_insert. rewrite Hone. eauto. }
  assert (kmem_freelist s1 = 0x80002000) as Hfl.
  { change (kmem_freelist s0 = 0x80002000).
    by destruct (chain_head _ _ _ _ (inv_chain _ _ _ _ _ Hinv)) as (? & _). }
  assert (pmem_num_free_pages s1 = 2) as Hnum
    by exact (inv_count _ _ _ _ _ Hinv).
  exists s1, (push_page 0x80003000 s1). split_and!.
  - revert Hrun. unfold mbind, M_bind.
    destruct (kinit1 _ _ _ _ _ _ _) as [[] s|msg s| |]; try done.
    intros ->. by rewrite (inc_refcount_eq _ _ 1 Hone').
  - exact Hu.
  - by rewrite get_refcount_V2P, Htwo.
  - exact Hfl.
  - exact Hnum.
  - apply kfree_seed; [reflexivity|exact Hu].
  - rewrite get_refcount_V2P.
    destruct (push_page_frame 0x80003000 s1) as (_ & _ & -> & _).
    by rewrite Htwo.
  - reflexivity.
  - unfold push_page;
      cbn [pmem_num_free_pages set_num_free_pages set_freelist set_ram]. by rewrite Hnum.
Qed.
